(** * galaxy_spaxel_mstar: spaxel stellar masses of one galaxy, written to csv

    A shallow embedding of [scripts/galaxy_spaxel_mstar.py].  The script
    opens the Firefly stellar population catalog, selects one galaxy by
    its plate-ifu, turns the galaxy's grid of bin ids into a grid of
    stellar masses, trims the grid to the size of the DAP maps and writes
    it with pandas.

    Numbers are modelled as the script has them: bin ids and the header
    value are integers ([Z]), masses are IEEE doubles ([spec_float], with
    [S754_nan] for [np.nan]).  numpy arrays are nested lists; a 2D array
    is rectangular, which the theorems state with [rect] where they need
    it.  Statements that can raise return a [result]; the script as a
    whole runs in a monad that threads the log of its effects. *)

From Stdlib Require Import ZArith Lia.
From Stdlib Require Import Floats.SpecFloat.
From stdpp Require Import base list strings pretty.

Local Open Scope Z_scope.

(** ** Values *)

Definition float : Type := spec_float.

Definition nan : float := S754_nan.

Definition isnan (x : float) : bool :=
  match x with
  | S754_nan => true
  | _ => false
  end.

(** The doubles 5.0 and 7.0: a 53-bit mantissa and its exponent. *)
Definition f5 : float := S754_finite false 5629499534213120 (-50).
Definition f7 : float := S754_finite false 7881299347898368 (-50).

(** The bin id that the catalog gives to spaxels outside every bin. *)
Definition sentinel : Z := -99.

(** ** Exceptions

    [IndexError] is what numpy raises for an index out of bounds,
    [OSError] what [fits.open] and [to_csv] raise on a file they cannot
    reach, [MarvinError] stands for whatever [Cube] raises.
    [NotFoundError] belongs to the error taxonomy of the specification;
    no statement of the script raises it. *)
Inductive exn : Type :=
| IndexError
| OSError
| MarvinError
| NotFoundError.

Inductive result (A : Type) : Type :=
| Ok (a : A)
| Raise (e : exn).
Arguments Ok {A} a.
Arguments Raise {A} e.

Definition is_ok {A} (r : result A) : bool :=
  match r with
  | Ok _ => true
  | Raise _ => false
  end.

#[global] Instance result_ret : MRet result := fun A a => Ok a.
#[global] Instance result_bind : MBind result := fun A B f r =>
  match r with
  | Ok a => f a
  | Raise e => Raise e
  end.
#[global] Instance result_fmap : FMap result := fun A B f r =>
  match r with
  | Ok a => Ok (f a)
  | Raise e => Raise e
  end.

(** ** numpy and Python primitives *)

Module Np.

(** [a[i]] for an integer [i] on an axis of length [n]: indices from
    [-n] to [-1] count from the end, anything else outside [0, n) is an
    [IndexError]. *)
Definition normalize_index (n : nat) (i : Z) : result nat :=
  if (0 <=? i) && (i <? Z.of_nat n) then Ok (Z.to_nat i)
  else if (- Z.of_nat n <=? i) && (i <? 0) then Ok (Z.to_nat (Z.of_nat n + i))
  else Raise IndexError.

Definition getitem {A} (a : list A) (i : Z) : result A :=
  k ← normalize_index (length a) i;
  match a !! k with
  | Some x => Ok x
  | None => Raise IndexError
  end.

(** [a[inds]] for an integer array [inds]: one [getitem] per index, the
    whole gather failing when one of them does. *)
Fixpoint take {A} (a : list A) (inds : list Z) : result (list A) :=
  match inds with
  | [] => Ok []
  | i :: rest =>
      x ← getitem a i;
      xs ← take a rest;
      Ok (x :: xs)
  end.

(** [np.where(cond)[0]] on a 1D array: the positions where the
    condition holds, in increasing order. *)
Fixpoint where_from {A} (k : nat) (cond : A → bool) (a : list A) : list nat :=
  match a with
  | [] => []
  | x :: rest =>
      if cond x then k :: where_from (S k) cond rest
      else where_from (S k) cond rest
  end.

Definition where_ {A} (cond : A → bool) (a : list A) : list nat :=
  where_from 0 cond a.

(** [a[ks] = v] for an array of positions [ks] and a scalar [v]. *)
Definition put {A} (ks : list nat) (v : A) (a : list A) : list A :=
  foldl (fun acc k => <[k := v]> acc) a ks.

(** The stop of the slice [a[:n]] on an axis of length [len]: a
    negative [n] counts from the end, and the result is clamped to the
    axis. *)
Definition slice_stop (len : nat) (n : Z) : nat :=
  if n <? 0 then Z.to_nat (Z.max 0 (Z.of_nat len + n))
  else Z.to_nat (Z.min n (Z.of_nat len)).

Definition slice_to {A} (n : Z) (a : list A) : list A :=
  firstn (slice_stop (length a) n) a.

(** [a[:n, :n]] on a 2D array. *)
Definition slice_to2 {A} (n : Z) (a : list (list A)) : list (list A) :=
  map (slice_to n) (slice_to n a).

(** The shape of a 2D array held as a list of rows. *)
Definition ncols {A} (a : list (list A)) : nat :=
  match a with
  | [] => 0%nat
  | r :: _ => length r
  end.

Definition shape {A} (a : list (list A)) : nat * nat := (length a, ncols a).

(** [np.ones(shape) * np.nan] *)
Definition full_nan (sh : nat * nat) : list (list float) :=
  replicate (fst sh) (replicate (snd sh) nan).

End Np.

(** A 2D array with [r] rows of [c] cells each. *)
Definition rect {A} (r c : nat) (a : list (list A)) : Prop :=
  length a = r ∧ Forall (fun row => length row = c) a.

(** ** The catalog tables *)

(** One cell of [SPAXEL_BINID]: the bin id and the five fields after it. *)
Record binid_cell : Type := BinidCell {
  binid : float;
  xmin : float;
  xmax : float;
  ymin : float;
  ymax : float;
  image_size : float
}.

(** One entry of [STELLAR_MASS_VORONOI]: (Mstar, Mstar_err). *)
Record mass_entry : Type := MassEntry {
  Mstar : float;
  Mstar_err : float
}.

(** ** The stellar mass array (lines 59 to 64) *)

Definition is_sentinel (i : Z) : bool := i =? sentinel.

(** [mstar_all[ind1, inds, 0]] *)
Definition gather_mstar (mstar_all : list (list mass_entry)) (ind1 : nat)
    (inds : list Z) : result (list float) :=
  match mstar_all !! ind1 with
  | None => Raise IndexError
  | Some bins => Np.take (Mstar <$> bins) inds
  end.

(** The body of the loop over [enumerate(ind_binid)]. *)
Definition row_step (mstar_all : list (list mass_entry)) (ind1 : nat)
    (mstar : list (list float)) (row : nat) (inds : list Z)
    : result (list (list float)) :=
  let ind_nans := Np.where_ is_sentinel inds in
  gathered ← gather_mstar mstar_all ind1 inds;
  let mstar := <[row := gathered]> mstar in
  Ok (alter (Np.put ind_nans nan) row mstar).

Fixpoint for_rows (mstar_all : list (list mass_entry)) (ind1 : nat)
    (row : nat) (rows : list (list Z)) (mstar : list (list float))
    : result (list (list float)) :=
  match rows with
  | [] => Ok mstar
  | inds :: rest =>
      mstar' ← row_step mstar_all ind1 mstar row inds;
      for_rows mstar_all ind1 (S row) rest mstar'
  end.

Definition build_mstar (mstar_all : list (list mass_entry)) (ind1 : nat)
    (ind_binid : list (list Z)) : result (list (list float)) :=
  let mstar := Np.full_nan (Np.shape ind_binid) in
  for_rows mstar_all ind1 0 ind_binid mstar.

(** An index that numpy accepts on an axis of length [n]. *)
Definition in_bounds (n : nat) (i : Z) : Prop := - Z.of_nat n ≤ i < Z.of_nat n.

(** A bin id that names a bin of a table with [n] bins. *)
Definition valid_bin (n : nat) (i : Z) : Prop := 0 ≤ i < Z.of_nat n.

(** The cell at ([row], [col]) of a 2D array. *)
Definition at2 {A} (a : list (list A)) (row col : nat) : option A :=
  a !! row ≫= (fun r => r !! col).

(** What the specification asks of one cell, in its own words: branch on
    the sentinel first, index the mass column otherwise. *)
Definition mass_of_bin (mass_column : list float) (bin_id : Z) : result float :=
  if is_sentinel bin_id then Ok nan else Np.getitem mass_column bin_id.

(** ** The galaxy and its bin ids (lines 55 to 57) *)

Record catalog : Type := Catalog {
  plateifus : list string;
  spaxel_binid : list (list (list binid_cell));
  mstar_all : list (list mass_entry)
}.

(** The characters that numpy drops from the end of a string before it
    compares string arrays: the ASCII white space and the NUL padding. *)
Definition is_space (ch : Ascii.ascii) : bool :=
  let n := Ascii.N_of_ascii ch in
  ((n =? 0) || ((9 <=? n) && (n <=? 13)) || (n =? 32))%N.

Fixpoint all_space (s : string) : bool :=
  match s with
  | EmptyString => true
  | String ch rest => is_space ch && all_space rest
  end.

Fixpoint rstrip (s : string) : string :=
  match s with
  | EmptyString => EmptyString
  | String ch rest => if all_space s then EmptyString else String ch (rstrip rest)
  end.

(** [==] between the column of a FITS table, which astropy gives as a
    character array, and a string: both sides are compared without their
    trailing white space. *)
Definition char_equal (a b : string) : bool :=
  String.eqb (rstrip a) (rstrip b).

(** [np.where(plateifus == plateifu)[0][0]] *)
Definition select_galaxy (plateifus : list string) (plateifu : string)
    : result nat :=
  match Np.where_ (char_equal plateifu) plateifus with
  | [] => Raise IndexError
  | ind1 :: _ => Ok ind1
  end.

Definition int64_min : Z := - 2 ^ 63.
Definition int64_max : Z := 2 ^ 63 - 1.

(** [.astype(int)] on a double: the fraction is dropped (towards zero);
    a value with no 64-bit integer (nan, the infinities, anything out of
    range) comes out as the smallest one. *)
Definition astype_int (x : float) : Z :=
  match x with
  | S754_zero _ => 0
  | S754_finite s m e =>
      let a := Z.shiftl (Z.pos m) e in
      let v := if s then - a else a in
      if (int64_min <=? v) && (v <=? int64_max) then v else int64_min
  | _ => int64_min
  end.

(** [spaxel_binid[ind1, :, :, 0].astype(int)] *)
Definition select_binid (spaxel_binid : list (list (list binid_cell)))
    (ind1 : nat) : result (list (list Z)) :=
  match spaxel_binid !! ind1 with
  | None => Raise IndexError
  | Some page => Ok (map (map (fun c => astype_int (binid c))) page)
  end.

(** ** The effects of a run

    A run leaves a log of what it did to the world, oldest event first.
    A statement that raises ends the run with the log as it stands. *)

Inductive event : Type :=
| FitsOpen (path : string)
| FitsClose
| ForceDbOff
| ToCsv (path : string) (lines : list (list string))
| Stdout (text : string).

Definition prog (A : Type) : Type := list event → result A * list event.

#[global] Instance prog_ret : MRet prog := fun A a log => (Ok a, log).
#[global] Instance prog_bind : MBind prog := fun A B f m log =>
  match m log with
  | (Ok a, log') => f a log'
  | (Raise e, log') => (Raise e, log')
  end.

Definition emit (ev : event) : prog unit := fun log => (Ok tt, log ++ [ev]).

Definition lift {A} (r : result A) : prog A := fun log => (r, log).

(** Whether the catalog is open after the events of [log]. *)
Definition held (log : list event) : bool :=
  foldl (fun h ev =>
           match ev with
           | FitsOpen _ => true
           | FitsClose => false
           | _ => h
           end) false log.

(** What a run finds outside the script: the catalog file (or the error
    of opening it), the data directory, the header of the galaxy's cube
    as marvin returns it, and the paths that can be written. *)
Record env : Type := Env {
  path_data : string;
  firefly : result catalog;
  naxis1 : string → result Z;
  writable : string → bool
}.

Definition join (dir name : string) : string := dir +:+ "/" +:+ name.

Definition path_firefly (e : env) : string :=
  join (path_data e) "manga_firefly-v2_1_2-STELLARPOP.fits".

(** [join(path_data, 'manga-{}_mstar.csv'.format(plateifu))] *)
Definition fout_path (e : env) (plateifu : string) : string :=
  join (path_data e) ("manga-" +:+ plateifu +:+ "_mstar.csv").

(** [fits.open(path_firefly)] *)
Definition fits_open (e : env) : prog catalog :=
  match firefly e with
  | Ok fin => _ ← emit (FitsOpen (path_firefly e)); mret fin
  | Raise err => lift (Raise err)
  end.

Definition newline : string := String (Ascii.ascii_of_nat 10) EmptyString.

Section Serializer.

(** The text pandas gives a float that is not nan: Python's [repr]. *)
Variable float_repr : float → string.

(** A missing value is written as the empty field ([na_rep]). *)
Definition cell_text (x : float) : string :=
  if isnan x then "" else float_repr x.

(** [pd.DataFrame(a).to_csv(fout, index=False)]: the lines of the file,
    each as its list of fields.  The frame labels its columns
    0, 1, ...; [header] keeps its default, so the labels are the first
    line; [index=False] leaves the row labels out. *)
Definition to_csv (a : list (list float)) : list (list string) :=
  (pretty <$> seq 0 (Np.ncols a)) :: (map cell_text <$> a).

(** Writing the file, taken as one step: the lines reach the disk, or
    [to_csv] raises before any of them does.  A write that fails half
    way and leaves part of the file is not in this model. *)
Definition write_csv (e : env) (fout : string) (a : list (list float))
    : prog unit :=
  if writable e fout then emit (ToCsv fout (to_csv a))
  else lift (Raise OSError).

(** The script from [fits.open] to [fin.close()], statement by statement.
    [print] and [fin.close()] are taken to return: the model has no
    error after the write. *)
Definition run (e : env) (plateifu : string) : prog unit :=
  fin ← fits_open e;
  ind1 ← lift (select_galaxy (plateifus fin) plateifu);
  ind_binid ← lift (select_binid (spaxel_binid fin) ind1);
  mstar ← lift (build_mstar (mstar_all fin) ind1 ind_binid);
  _ ← emit ForceDbOff;
  len_x ← lift (naxis1 e plateifu);
  let fout := fout_path e plateifu in
  _ ← write_csv e fout (Np.slice_to2 len_x mstar);
  _ ← emit (Stdout (newline +:+ "Wrote: " +:+ fout));
  emit FitsClose.

End Serializer.

(** ** What the statements compare the code with *)

(** The row that one turn of the loop leaves in [mstar]. *)
Definition mask (inds : list Z) (gathered : list float) : list float :=
  zip_with (fun i x => if is_sentinel i then nan else x) inds gathered.

(** What one turn of the loop makes of a row of bin ids. *)
Definition row_result (mstar_all : list (list mass_entry)) (ind1 : nat)
    (inds : list Z) (out : list float) : Prop :=
  ∃ gathered, gather_mstar mstar_all ind1 inds = Ok gathered
              ∧ out = mask inds gathered.

(** ** A number format for the samples *)

(** Python's [repr] on the doubles that hold an integer below 2^53 (its
    digits, then [.0]), on the zeros and on the infinities.  It serves to
    run the model on the sample tables; the statements on the file hold
    for every [float_repr].  Any other double is shown as mantissa and
    exponent, which is not what Python prints. *)
Definition repr_integral (x : float) : string :=
  match x with
  | S754_zero s => if s then "-0.0" else "0.0"
  | S754_infinity s => if s then "-inf" else "inf"
  | S754_nan => "nan"
  | S754_finite s m e =>
      let n := Z.shiftl (Z.pos m) e in
      let sign := if s then "-" else "" in
      if (Z.shiftl n (- e) =? Z.pos m) && (n <? 2 ^ 53)
      then sign +:+ pretty n +:+ ".0"
      else sign +:+ pretty (Z.pos m) +:+ "*2**" +:+ pretty e
  end.

(** ** Sample catalogs

    A galaxy with two bins, one with 99 bins (the shortest table on
    which -99 is an index), and one whose only bin has no mass. *)

Definition bins2 : list mass_entry := [MassEntry f5 f7; MassEntry f7 f5].

Definition bins99 : list mass_entry := bins2 ++ replicate 97 (MassEntry f7 nan).

Definition bins_nan : list mass_entry := [MassEntry nan nan].

(** The doubles 0.0, 1.0 and -99.0. *)
Definition f0 : float := S754_zero false.
Definition f1 : float := S754_finite false 4503599627370496 (-52).
Definition fm99 : float := S754_finite true 6966505673588736 (-46).

Definition cell_of (b : float) : binid_cell := BinidCell b f0 f0 f0 f0 f0.

(** The catalog of the end-to-end scenario of the specification: one
    galaxy, a 2 by 2 grid of bin ids, two bins. *)
Definition scenario_binid : list (list (list binid_cell)) :=
  [[[cell_of f0; cell_of fm99]; [cell_of f1; cell_of f0]]].

Definition scenario_catalog : catalog :=
  Catalog ["0001-01"] scenario_binid [bins2].

(** The same galaxy in a catalog whose table has 99 bins. *)
Definition long_catalog : catalog :=
  Catalog ["0001-01"] scenario_binid [bins99].

(** The catalog with 99 bins again, with other spaxel coordinates and
    other mass errors. *)
Definition long_catalog_other_fields : catalog :=
  Catalog ["0001-01"]
    [[[BinidCell f0 f1 f5 f7 f1 f5; BinidCell fm99 f0 f0 f0 f0 f0];
      [BinidCell f1 nan nan nan nan nan; BinidCell f0 f0 f0 f0 f0 f0]]]
    [(fun m => MassEntry (Mstar m) f0) <$> bins99].

(** A world in which the catalog opens, the cube of every galaxy is 2
    spaxels wide and every path can be written. *)
Definition env_of (fin : catalog) : env :=
  Env "../data" (Ok fin) (fun _ => Ok 2) (fun _ => true).

(** ** The files of a run *)

(** The csv files that a log records, each with its path and lines. *)
Definition csv_files (log : list event) : list (string * list (list string)) :=
  omap (fun ev =>
          match ev with
          | ToCsv path lines => Some (path, lines)
          | _ => None
          end) log.

(** The events of a run that reaches its last statement. *)
Definition full_log (e : env) (plateifu : string)
    (lines : list (list string)) : list event :=
  [FitsOpen (path_firefly e);
   ForceDbOff;
   ToCsv (fout_path e plateifu) lines;
   Stdout (newline +:+ "Wrote: " +:+ fout_path e plateifu);
   FitsClose].

(** ** The data directory (lines 36 to 38)

    [os.path.split] and [os.path.join] as [posixpath] has them, on the
    absolute path of the working directory. *)

Definition sep : Ascii.ascii := Ascii.ascii_of_nat 47.

Definition is_sep (ch : Ascii.ascii) : bool := Ascii.eqb ch sep.

Fixpoint has_sep (p : string) : bool :=
  match p with
  | EmptyString => false
  | String ch rest => is_sep ch || has_sep rest
  end.

Fixpoint all_sep (p : string) : bool :=
  match p with
  | EmptyString => true
  | String ch rest => is_sep ch && all_sep rest
  end.

(** [p[:i]] for [i = p.rfind('/') + 1]: the characters up to the last
    separator, that separator included. *)
Fixpoint upto_last_sep (p : string) : string :=
  match p with
  | EmptyString => EmptyString
  | String ch rest =>
      if has_sep p then String ch (upto_last_sep rest) else EmptyString
  end.

(** [p[i:]]: the characters after the last separator. *)
Fixpoint after_last_sep (p : string) : string :=
  match p with
  | EmptyString => EmptyString
  | String ch rest => if has_sep p then after_last_sep rest else p
  end.

(** [head.rstrip('/')] *)
Fixpoint rstrip_sep (p : string) : string :=
  match p with
  | EmptyString => EmptyString
  | String ch rest => if all_sep p then EmptyString else String ch (rstrip_sep rest)
  end.

Definition os_path_split (p : string) : string * string :=
  let head := upto_last_sep p in
  let tail := after_last_sep p in
  (if negb (String.eqb head "") && negb (all_sep head)
   then rstrip_sep head else head,
   tail).

Definition startswith_sep (p : string) : bool :=
  match p with
  | EmptyString => false
  | String ch _ => is_sep ch
  end.

Fixpoint endswith_sep (p : string) : bool :=
  match p with
  | EmptyString => false
  | String ch EmptyString => is_sep ch
  | String _ rest => endswith_sep rest
  end.

(** [os.path.join(a, b)] *)
Definition os_path_join (a b : string) : string :=
  if startswith_sep b then b
  else if String.eqb a "" || endswith_sep a then a +:+ b
  else a +:+ "/" +:+ b.

(** [path_repo] and [path_data], from [os.path.abspath('.')]. *)
Definition path_repo_of (cwd : string) : string := fst (os_path_split cwd).

Definition path_data_of (cwd : string) : string :=
  os_path_join (path_repo_of cwd) "data".

(** * Facts about the primitives *)

Example normalize_index_last : Np.normalize_index 3 (-1) = Ok 2%nat.
Proof. reflexivity. Qed.

Example normalize_index_before_first : Np.normalize_index 3 (-4) = Raise IndexError.
Proof. reflexivity. Qed.

Example normalize_index_after_last : Np.normalize_index 3 3 = Raise IndexError.
Proof. reflexivity. Qed.

Example where_sentinel : Np.where_ is_sentinel [0; -99; 4; -99] = [1; 3]%nat.
Proof. reflexivity. Qed.

Example put_at_where :
  Np.put [1; 3]%nat nan [f5; f7; f5; f7] = [f5; nan; f5; nan].
Proof. reflexivity. Qed.

Example slice_to_negative : Np.slice_to (-1) [f5; f7; f5] = [f5; f7].
Proof. reflexivity. Qed.

Example astype_int_drops_fraction : astype_int (S754_finite true 7 (-1)) = -3.
Proof. reflexivity. Qed.

Example astype_int_sentinel : astype_int fm99 = sentinel.
Proof. reflexivity. Qed.

Example repr_integral_five : repr_integral f5 = "5.0".
Proof. vm_compute. reflexivity. Qed.

Example rstrip_padding : rstrip "0001-01  " = "0001-01".
Proof. reflexivity. Qed.

Example rstrip_keeps_inner_space : rstrip " 8485 1901" = " 8485 1901".
Proof. reflexivity. Qed.

Ltac result_simpl :=
  repeat (progress (unfold mbind, result_bind, mret, result_ret in *; simpl in *)).

Section NpFacts.

Context {A : Type}.
Implicit Types (a xs : list A) (inds : list Z) (i : Z) (n k : nat).

Lemma normalize_index_nonneg n i :
  valid_bin n i → Np.normalize_index n i = Ok (Z.to_nat i).
Proof.
  intros [H0 Hn]. unfold Np.normalize_index.
  destruct (Z.leb_spec 0 i); [|lia].
  destruct (Z.ltb_spec i (Z.of_nat n)); [|lia]. reflexivity.
Qed.

Lemma normalize_index_neg n i :
  - Z.of_nat n ≤ i < 0 →
  Np.normalize_index n i = Ok (Z.to_nat (Z.of_nat n + i)).
Proof.
  intros [Hn H0]. unfold Np.normalize_index.
  destruct (Z.leb_spec 0 i); [lia|]. simpl.
  destruct (Z.leb_spec (- Z.of_nat n) i); [|lia].
  destruct (Z.ltb_spec i 0); [|lia]. reflexivity.
Qed.

Lemma normalize_index_out n i :
  ¬ in_bounds n i → Np.normalize_index n i = Raise IndexError.
Proof.
  intros Hout. unfold in_bounds in Hout. unfold Np.normalize_index.
  destruct (Z.leb_spec 0 i), (Z.ltb_spec i (Z.of_nat n)),
    (Z.leb_spec (- Z.of_nat n) i), (Z.ltb_spec i 0); simpl; try reflexivity; lia.
Qed.

Lemma normalize_index_lt n i k :
  Np.normalize_index n i = Ok k → (k < n)%nat ∧ in_bounds n i.
Proof.
  unfold Np.normalize_index, in_bounds.
  destruct (Z.leb_spec 0 i), (Z.ltb_spec i (Z.of_nat n)),
    (Z.leb_spec (- Z.of_nat n) i), (Z.ltb_spec i 0); simpl;
    intros [= <-]; lia.
Qed.

Lemma getitem_nonneg a i :
  valid_bin (length a) i →
  ∃ x, a !! Z.to_nat i = Some x ∧ Np.getitem a i = Ok x.
Proof.
  intros Hv. unfold Np.getitem. rewrite (normalize_index_nonneg _ _ Hv).
  destruct (lookup_lt_is_Some_2 a (Z.to_nat i)) as [x Hx].
  { destruct Hv. lia. }
  exists x. result_simpl. rewrite Hx. auto.
Qed.

Lemma getitem_neg a i :
  - Z.of_nat (length a) ≤ i < 0 →
  ∃ x, a !! (length a - Z.to_nat (- i))%nat = Some x ∧ Np.getitem a i = Ok x.
Proof.
  intros Hv. unfold Np.getitem. rewrite (normalize_index_neg _ _ Hv).
  replace (Z.to_nat (Z.of_nat (length a) + i))
    with (length a - Z.to_nat (- i))%nat by lia.
  destruct (lookup_lt_is_Some_2 a (length a - Z.to_nat (- i))%nat) as [x Hx].
  { lia. }
  exists x. result_simpl. rewrite Hx. auto.
Qed.

Lemma getitem_in_bounds a i :
  in_bounds (length a) i → ∃ x, Np.getitem a i = Ok x.
Proof.
  intros [Hl Hu]. destruct (Z.lt_ge_cases i 0).
  - destruct (getitem_neg a i) as (x & _ & Hx); [lia|]. eauto.
  - destruct (getitem_nonneg a i) as (x & _ & Hx); [split; lia|]. eauto.
Qed.

Lemma getitem_out a i :
  ¬ in_bounds (length a) i → Np.getitem a i = Raise IndexError.
Proof.
  intros Hout. unfold Np.getitem.
  rewrite (normalize_index_out _ _ Hout). reflexivity.
Qed.

Lemma getitem_ok_in_bounds a i x :
  Np.getitem a i = Ok x → in_bounds (length a) i.
Proof.
  intros Hx. destruct (decide (in_bounds (length a) i)) as [Hin|Hout].
  - exact Hin.
  - rewrite (getitem_out a i Hout) in Hx. discriminate.
Qed.

Lemma getitem_raises a i e :
  Np.getitem a i = Raise e → e = IndexError ∧ ¬ in_bounds (length a) i.
Proof.
  intros Hr. destruct (decide (in_bounds (length a) i)) as [Hin|Hout].
  - destruct (getitem_in_bounds a i Hin) as [x Hx]. congruence.
  - rewrite (getitem_out a i Hout) in Hr. split; [congruence|assumption].
Qed.

(** The gather succeeds exactly when every index does, cell by cell. *)
Lemma take_Forall2 a inds xs :
  Np.take a inds = Ok xs ↔ Forall2 (fun i x => Np.getitem a i = Ok x) inds xs.
Proof.
  revert xs. induction inds as [|i inds IH]; intros xs; simpl.
  - split.
    + intros [= <-]. constructor.
    + intros H. inversion H. reflexivity.
  - split.
    + destruct (Np.getitem a i) as [x|e] eqn:Hi; result_simpl; [|discriminate].
      destruct (Np.take a inds) as [ys|e] eqn:Ht; result_simpl; [|discriminate].
      intros [= <-]. constructor; [assumption|]. apply IH. reflexivity.
    + intros H. inversion H as [|? x ? ys Hi Hrest]; subst.
      rewrite Hi. apply IH in Hrest. rewrite Hrest. reflexivity.
Qed.

Lemma take_in_bounds a inds :
  Forall (in_bounds (length a)) inds → ∃ xs, Np.take a inds = Ok xs.
Proof.
  induction 1 as [|i inds Hi _ [xs IH]]; simpl.
  - eauto.
  - destruct (getitem_in_bounds a i Hi) as [x Hx].
    rewrite Hx, IH. result_simpl. eauto.
Qed.

Lemma take_out a inds :
  Exists (fun i => ¬ in_bounds (length a) i) inds →
  Np.take a inds = Raise IndexError.
Proof.
  induction 1 as [i inds Hi|i inds _ IH]; simpl.
  - rewrite (getitem_out a i Hi). reflexivity.
  - rewrite IH. destruct (Np.getitem a i) as [x|e] eqn:Hx; result_simpl.
    + reflexivity.
    + apply getitem_raises in Hx as [-> _]. reflexivity.
Qed.

Lemma take_length a inds xs :
  Np.take a inds = Ok xs → length xs = length inds.
Proof.
  intros H. apply take_Forall2 in H. symmetry. eapply Forall2_length, H.
Qed.

End NpFacts.

(** Writing [v] at the positions that [np.where] found is a cell by cell
    choice between [v] and the old value. *)
Lemma put_where_from {A B} (cond : B → bool) (v : A) (bs : list B) :
  ∀ (pre xs : list A), length xs = length bs →
    Np.put (Np.where_from (length pre) cond bs) v (pre ++ xs)
    = pre ++ zip_with (fun b x => if cond b then v else x) bs xs.
Proof.
  unfold Np.put.
  induction bs as [|b bs IH]; intros pre [|x xs] Hlen; simpl in *;
    try discriminate; try reflexivity.
  injection Hlen as Hlen.
  destruct (cond b); simpl.
  - rewrite insert_app_r_alt by lia. rewrite Nat.sub_diag. simpl.
    specialize (IH (pre ++ [v]) xs Hlen).
    rewrite length_app in IH. simpl in IH. rewrite Nat.add_1_r in IH.
    rewrite <- !app_assoc in IH. exact IH.
  - specialize (IH (pre ++ [x]) xs Hlen).
    rewrite length_app in IH. simpl in IH. rewrite Nat.add_1_r in IH.
    rewrite <- !app_assoc in IH. exact IH.
Qed.

(** * The stellar mass array *)

Lemma put_sentinels inds gathered :
  length gathered = length inds →
  Np.put (Np.where_ is_sentinel inds) nan gathered = mask inds gathered.
Proof.
  intros Hlen. exact (put_where_from is_sentinel nan inds [] gathered Hlen).
Qed.

Lemma gather_mstar_length mstar_all ind1 inds gathered :
  gather_mstar mstar_all ind1 inds = Ok gathered →
  length gathered = length inds.
Proof.
  unfold gather_mstar. destruct (mstar_all !! ind1); [|discriminate].
  apply take_length.
Qed.

Lemma gather_mstar_raises mstar_all ind1 inds e :
  gather_mstar mstar_all ind1 inds = Raise e → e = IndexError.
Proof.
  unfold gather_mstar. destruct (mstar_all !! ind1) as [bins|]; [|congruence].
  intros Hr.
  destruct (decide (Forall (in_bounds (length (Mstar <$> bins))) inds)) as [Hall|Hnot].
  - destruct (take_in_bounds _ _ Hall) as [xs Hxs]. congruence.
  - apply not_Forall_Exists in Hnot; [|intros i; apply _].
    rewrite (take_out _ _ Hnot) in Hr. congruence.
Qed.

Lemma row_step_ok mstar_all ind1 mstar row inds gathered :
  gather_mstar mstar_all ind1 inds = Ok gathered →
  row_step mstar_all ind1 mstar row inds
  = Ok (<[row := mask inds gathered]> mstar).
Proof.
  intros Hg. unfold row_step. rewrite Hg. result_simpl. f_equal.
  rewrite (list_insert_alter mstar), list_alter_alter_eq, list_insert_alter.
  apply list_alter_ext; [|reflexivity].
  intros old _. simpl. apply put_sentinels.
  eapply gather_mstar_length, Hg.
Qed.

Lemma row_step_raise mstar_all ind1 mstar row inds e :
  gather_mstar mstar_all ind1 inds = Raise e →
  row_step mstar_all ind1 mstar row inds = Raise IndexError.
Proof.
  intros Hg. unfold row_step. rewrite Hg.
  apply gather_mstar_raises in Hg as ->. reflexivity.
Qed.

(** The loop fills the rows one after the other and leaves the rest of
    [mstar] as it was. *)
Lemma for_rows_ok mstar_all ind1 rows outs :
  Forall2 (fun inds out => ∃ gathered,
             gather_mstar mstar_all ind1 inds = Ok gathered
             ∧ out = mask inds gathered) rows outs →
  ∀ pre cur post, length cur = length rows →
    for_rows mstar_all ind1 (length pre) rows (pre ++ cur ++ post)
    = Ok (pre ++ outs ++ post).
Proof.
  induction 1 as [|inds out rows outs (gathered & Hg & ->) _ IH];
    intros pre [|c cur] post Hlen; simpl in *; try discriminate.
  - reflexivity.
  - injection Hlen as Hlen.
    rewrite (row_step_ok _ _ _ _ _ _ Hg). result_simpl.
    rewrite insert_app_r_alt by lia. rewrite Nat.sub_diag. simpl.
    specialize (IH (pre ++ [mask inds gathered]) cur post Hlen).
    rewrite length_app in IH. simpl in IH. rewrite Nat.add_1_r in IH.
    rewrite <- !app_assoc in IH. exact IH.
Qed.

(** One row that the gather refuses stops the loop. *)
Lemma for_rows_raise mstar_all ind1 rows :
  Exists (fun inds => is_ok (gather_mstar mstar_all ind1 inds) = false) rows →
  ∀ row mstar, for_rows mstar_all ind1 row rows mstar = Raise IndexError.
Proof.
  induction 1 as [inds rows Hbad|inds rows _ IH]; intros row mstar; simpl.
  - destruct (gather_mstar mstar_all ind1 inds) as [g|e] eqn:Hg; [discriminate|].
    rewrite (row_step_raise _ _ _ _ _ _ Hg). reflexivity.
  - destruct (gather_mstar mstar_all ind1 inds) as [g|e] eqn:Hg.
    + rewrite (row_step_ok _ _ _ _ _ _ Hg). result_simpl. apply IH.
    + rewrite (row_step_raise _ _ _ _ _ _ Hg). reflexivity.
Qed.

Lemma mask_mass_of_bin mass_column inds gathered :
  Forall2 (fun i x => Np.getitem mass_column i = Ok x) inds gathered →
  Forall2 (fun i v => mass_of_bin mass_column i = Ok v) inds (mask inds gathered).
Proof.
  induction 1 as [|i x inds gathered Hi _ IH]; simpl.
  - constructor.
  - constructor; [|exact IH].
    unfold mass_of_bin. destruct (is_sentinel i); [reflexivity|exact Hi].
Qed.

Lemma Forall2_transfer {A B} (R : A → B → Prop) (P : A → Prop) (Q : B → Prop)
    (l : list A) (k : list B) :
  (∀ x y, P x → R x y → Q y) → Forall P l → Forall2 R l k → Forall Q k.
Proof.
  intros HPQ HP HR. revert HP.
  induction HR as [|x y l k Hxy _ IH]; intros HP; constructor;
    inversion HP; subst; eauto.
Qed.

Lemma Forall2_transfer2 {A B} (R : A → B → Prop) (P P' : A → Prop)
    (Q : B → Prop) (l : list A) (k : list B) :
  (∀ x y, P x → P' x → R x y → Q y) →
  Forall P l → Forall P' l → Forall2 R l k → Forall Q k.
Proof.
  intros HPQ HP HP' HR. revert HP HP'.
  induction HR as [|x y l k Hxy _ IH]; intros HP HP'; constructor;
    inversion HP; inversion HP'; subst; eauto.
Qed.

Lemma Forall2_at2 {A B} (R : A → B → Prop) (a : list (list A))
    (b : list (list B)) row col x :
  Forall2 (Forall2 R) a b → at2 a row col = Some x →
  ∃ y, at2 b row col = Some y ∧ R x y.
Proof.
  intros Hab. unfold at2. destruct (a !! row) as [ra|] eqn:Hra; [|discriminate].
  simpl. intros Hx.
  destruct (Forall2_lookup_l _ _ _ _ _ Hab Hra) as (rb & Hrb & Hrow).
  destruct (Forall2_lookup_l _ _ _ _ _ Hrow Hx) as (y & Hy & Hxy).
  exists y. rewrite Hrb. simpl. auto.
Qed.

Lemma Forall2_rect {A B} (R : A → B → Prop) (a : list (list A))
    (b : list (list B)) r c :
  Forall2 (Forall2 R) a b → rect r c a → rect r c b.
Proof.
  intros Hab [Hr Hc]. split.
  - rewrite <- Hr. symmetry. eapply Forall2_length, Hab.
  - apply (Forall2_transfer (Forall2 R) (fun ra => length ra = c)
             (fun rb => length rb = c) a b); [|exact Hc|exact Hab].
    intros ra rb <- Hrow. symmetry. eapply Forall2_length, Hrow.
Qed.

(** Every row that the gather accepts has its masked row. *)
Lemma rows_in_bounds mstar_all ind1 bins (ind_binid : list (list Z)) :
  mstar_all !! ind1 = Some bins →
  Forall (Forall (in_bounds (length bins))) ind_binid →
  ∃ outs,
    Forall2 (fun inds out => ∃ gathered,
               gather_mstar mstar_all ind1 inds = Ok gathered
               ∧ out = mask inds gathered) ind_binid outs
    ∧ Forall2 (Forall2 (fun i v => mass_of_bin (Mstar <$> bins) i = Ok v))
        ind_binid outs.
Proof.
  intros Hbins. induction 1 as [|inds rows Hin _ (outs & Hg & Hm)].
  - exists []. split; constructor.
  - rewrite <- (length_fmap Mstar) in Hin.
    destruct (take_in_bounds _ _ Hin) as [gathered Ht].
    exists (mask inds gathered :: outs). split; constructor; try assumption.
    + exists gathered. unfold gather_mstar. rewrite Hbins. auto.
    + apply mask_mass_of_bin, take_Forall2, Ht.
Qed.

(** The array that the loop builds is, cell by cell, what the
    specification asks for, whenever numpy accepts every bin id of the
    grid as an index into the galaxy's bins. *)
Lemma build_mstar_refines mstar_all ind1 bins (ind_binid : list (list Z)) :
  mstar_all !! ind1 = Some bins →
  Forall (Forall (in_bounds (length bins))) ind_binid →
  ∃ mstar,
    build_mstar mstar_all ind1 ind_binid = Ok mstar
    ∧ Forall2 (Forall2 (fun i v => mass_of_bin (Mstar <$> bins) i = Ok v))
        ind_binid mstar.
Proof.
  intros Hbins Hin.
  destruct (rows_in_bounds _ _ _ _ Hbins Hin) as (outs & Hg & Hm).
  exists outs. split; [|exact Hm].
  unfold build_mstar, Np.full_nan, Np.shape. simpl.
  pose proof (for_rows_ok _ _ _ _ Hg [] (replicate (length ind_binid)
    (replicate (Np.ncols ind_binid) nan)) []) as Hloop.
  simpl in Hloop. rewrite !app_nil_r in Hloop. apply Hloop.
  apply length_replicate.
Qed.

(** A bin id that numpy refuses makes the whole construction fail. *)
Lemma build_mstar_out_of_bounds mstar_all ind1 bins (ind_binid : list (list Z)) :
  mstar_all !! ind1 = Some bins →
  Exists (Exists (fun i => ¬ in_bounds (length bins) i)) ind_binid →
  build_mstar mstar_all ind1 ind_binid = Raise IndexError.
Proof.
  intros Hbins Hex. unfold build_mstar. apply for_rows_raise.
  eapply Exists_impl; [exact Hex|]. simpl. intros inds Hbad.
  unfold gather_mstar. rewrite Hbins.
  rewrite <- (length_fmap Mstar) in Hbad.
  rewrite (take_out _ _ Hbad). reflexivity.
Qed.

(** When the construction returns, every row went through the gather. *)
Lemma build_mstar_rows mstar_all ind1 (ind_binid : list (list Z)) mstar :
  build_mstar mstar_all ind1 ind_binid = Ok mstar →
  Forall2 (fun inds out => ∃ gathered,
             gather_mstar mstar_all ind1 inds = Ok gathered
             ∧ out = mask inds gathered) ind_binid mstar.
Proof.
  intros Hb.
  assert (Hdec : Forall (fun inds => is_ok (gather_mstar mstar_all ind1 inds) = true) ind_binid
                 ∨ Exists (fun inds => is_ok (gather_mstar mstar_all ind1 inds) = false) ind_binid).
  { clear Hb. induction ind_binid as [|inds rows [IH|IH]].
    - left. constructor.
    - destruct (is_ok (gather_mstar mstar_all ind1 inds)) eqn:Hok.
      + left. constructor; assumption.
      + right. constructor. assumption.
    - right. apply Exists_cons_tl. assumption. }
  destruct Hdec as [Hall|Hex].
  - assert (Houts : ∃ outs, Forall2 (fun inds out => ∃ gathered,
               gather_mstar mstar_all ind1 inds = Ok gathered
               ∧ out = mask inds gathered) ind_binid outs).
    { clear Hb. induction Hall as [|inds rows Hok _ [outs IH]].
      - exists []. constructor.
      - destruct (gather_mstar mstar_all ind1 inds) as [g|e] eqn:Hg; [|discriminate].
        exists (mask inds g :: outs). constructor; eauto. }
    destruct Houts as [outs Houts].
    pose proof (for_rows_ok _ _ _ _ Houts [] (replicate (length ind_binid)
      (replicate (Np.ncols ind_binid) nan)) []) as Hloop.
    simpl in Hloop. rewrite !app_nil_r in Hloop.
    unfold build_mstar, Np.full_nan, Np.shape in Hb. simpl in Hb.
    rewrite Hloop in Hb by apply length_replicate.
    injection Hb as <-. exact Houts.
  - unfold build_mstar in Hb. rewrite (for_rows_raise _ _ _ Hex) in Hb.
    discriminate.
Qed.

Lemma mask_length inds gathered :
  length gathered = length inds → length (mask inds gathered) = length inds.
Proof. intros H. unfold mask. rewrite length_zip_with. lia. Qed.

Lemma build_mstar_shape mstar_all ind1 (ind_binid : list (list Z)) mstar r c :
  build_mstar mstar_all ind1 ind_binid = Ok mstar →
  rect r c ind_binid → rect r c mstar.
Proof.
  intros Hb. apply build_mstar_rows in Hb.
  apply (Forall2_rect (fun _ _ => True)).
  eapply Forall2_impl; [exact Hb|]. simpl.
  intros inds out (gathered & Hg & ->).
  apply gather_mstar_length in Hg.
  apply Forall2_same_length_lookup_2.
  - symmetry. apply mask_length, Hg.
  - auto.
Qed.

(** ** Claims on the mass grid builder *)

(** The array that the builder returns when numpy accepts every bin id,
    the sentinel among them: same shape, NaN under the sentinel, the
    indexed mass elsewhere. *)
Lemma build_mstar_in_bounds mstar_all ind1 bins
    (ind_binid : list (list Z)) r c :
  mstar_all !! ind1 = Some bins →
  rect r c ind_binid →
  Forall (Forall (in_bounds (length bins))) ind_binid →
  ∃ mstar,
    build_mstar mstar_all ind1 ind_binid = Ok mstar
    ∧ rect r c mstar
    ∧ ∀ row col i, at2 ind_binid row col = Some i →
        ∃ v, at2 mstar row col = Some v
             ∧ (i = sentinel → v = nan)
             ∧ (i ≠ sentinel → Np.getitem (Mstar <$> bins) i = Ok v).
Proof.
  intros Hbins Hrect Hin.
  destruct (build_mstar_refines _ _ _ _ Hbins Hin) as (mstar & Hb & Hcells).
  exists mstar. split; [exact Hb|]. split.
  - eapply Forall2_rect; eassumption.
  - intros row col i Hi.
    destruct (Forall2_at2 _ _ _ _ _ _ Hcells Hi) as (v & Hv & Hspec).
    exists v. split; [exact Hv|].
    unfold mass_of_bin, is_sentinel in Hspec.
    destruct (Z.eqb_spec i sentinel) as [Heq|Hne].
    + split; [intros _; congruence|contradiction].
    + split; [contradiction|intros _; exact Hspec].
Qed.

(** C1 (the code departs from the claim).  On a bin-id grid, whose cells
    are valid bin ids or the sentinel -99, the builder produces the grid
    of the claim (same shape, mass_column[bin_id] where the bin id is
    not -99, NaN where it is) when the grid has no sentinel cell or the
    mass column has 99 bins or more.  On a mass column with fewer than
    99 bins a grid with a sentinel cell raises IndexError instead: no
    grid is produced. *)
Theorem build_mstar_on_bin_id_grid mstar_all ind1 bins
    (ind_binid : list (list Z)) r c :
  mstar_all !! ind1 = Some bins →
  rect r c ind_binid →
  Forall (Forall (fun i => i = sentinel ∨ valid_bin (length bins) i)) ind_binid →
  ((99 ≤ length bins)%nat ∨ Forall (Forall (fun i => i ≠ sentinel)) ind_binid →
   ∃ mstar,
     build_mstar mstar_all ind1 ind_binid = Ok mstar
     ∧ rect r c mstar
     ∧ ∀ row col i, at2 ind_binid row col = Some i →
         ∃ v, at2 mstar row col = Some v
              ∧ (i = sentinel → v = nan)
              ∧ (i ≠ sentinel → (Mstar <$> bins) !! Z.to_nat i = Some v))
  ∧ ((length bins < 99)%nat →
     Exists (Exists (fun i => i = sentinel)) ind_binid →
     build_mstar mstar_all ind1 ind_binid = Raise IndexError).
Proof.
  intros Hbins Hrect Hids. split.
  - intros Hsafe.
    assert (Hin : Forall (Forall (in_bounds (length bins))) ind_binid).
    { apply Forall_lookup. intros k inds Hk.
      apply Forall_lookup. intros j i Hj.
      pose proof (Forall_lookup_1 _ _ _ _ Hids Hk) as Hrow.
      destruct (Forall_lookup_1 _ _ _ _ Hrow Hj) as [->|Hv].
      - destruct Hsafe as [Hlong|Hnone].
        + unfold in_bounds, sentinel. lia.
        + pose proof (Forall_lookup_1 _ _ _ _ Hnone Hk) as Hrow'.
          destruct (Forall_lookup_1 _ _ _ _ Hrow' Hj). reflexivity.
      - unfold valid_bin, in_bounds in *. lia. }
    destruct (build_mstar_in_bounds _ _ _ _ _ _ Hbins Hrect Hin)
      as (mstar & Hb & Hshape & Hcells).
    exists mstar. split; [exact Hb|]. split; [exact Hshape|].
    intros row col i Hi.
    destruct (Hcells row col i Hi) as (v & Hv & Hsent & Hmass).
    exists v. split; [exact Hv|]. split; [exact Hsent|].
    intros Hne. specialize (Hmass Hne).
    assert (Hval : valid_bin (length (Mstar <$> bins)) i).
    { rewrite length_fmap.
      unfold at2 in Hi. destruct (ind_binid !! row) as [inds|] eqn:Hrow;
        [|discriminate]. simpl in Hi.
      pose proof (Forall_lookup_1 _ _ _ _ Hids Hrow) as Hr.
      destruct (Forall_lookup_1 _ _ _ _ Hr Hi) as [Hs|Hv']; [contradiction|exact Hv']. }
    destruct (getitem_nonneg _ _ Hval) as (x & Hx & Hget).
    congruence.
  - intros Hshort Hex.
    apply (build_mstar_out_of_bounds _ _ bins _ Hbins).
    eapply Exists_impl; [exact Hex|]. simpl. intros inds Hrow.
    eapply Exists_impl; [exact Hrow|]. simpl. intros i ->.
    unfold in_bounds, sentinel. lia.
Qed.

Lemma build_mstar_on_bin_id_grid_witness :
  build_mstar [bins2] 0 [[-99; 0]; [1; 1]] = Raise IndexError.
Proof.
  refine (proj2 (build_mstar_on_bin_id_grid [bins2] 0 bins2
                   [[-99; 0]; [1; 1]] 2 2 _ _ _) _ _).
  - reflexivity.
  - split; [reflexivity|repeat constructor].
  - constructor; [|constructor; [|constructor]].
    + constructor; [left; reflexivity|].
      constructor; [right; unfold valid_bin; simpl; lia|constructor].
    + constructor; [right; unfold valid_bin; simpl; lia|].
      constructor; [right; unfold valid_bin; simpl; lia|constructor].
  - simpl. lia.
  - constructor. constructor. reflexivity.
Defined.

(** C3 (amended).  For every bin-id grid that contains no sentinel cell,
    with every bin id a valid index into the galaxy's mass column and no
    NaN stored in the mass column at the bins the grid names, the builder
    returns a grid without NaN cells. *)
Theorem no_sentinel_no_nan mstar_all ind1 bins (ind_binid : list (list Z)) :
  mstar_all !! ind1 = Some bins →
  Forall (Forall (fun i => i ≠ sentinel ∧ valid_bin (length bins) i)) ind_binid →
  Forall (Forall (fun i => ∀ e, bins !! Z.to_nat i = Some e →
                                isnan (Mstar e) = false)) ind_binid →
  ∃ mstar,
    build_mstar mstar_all ind1 ind_binid = Ok mstar
    ∧ Forall (Forall (fun v => isnan v = false)) mstar.
Proof.
  intros Hbins Hvalid Hmass.
  destruct (build_mstar_refines _ _ bins ind_binid Hbins) as (mstar & Hb & Hcells).
  { eapply Forall_impl; [exact Hvalid|]. simpl. intros inds Hrow.
    eapply Forall_impl; [exact Hrow|]. simpl.
    unfold valid_bin, in_bounds. lia. }
  exists mstar. split; [exact Hb|].
  refine (Forall2_transfer2 _ _ _ _ _ _ _ Hvalid Hmass Hcells).
  simpl. intros inds out Hv Hm Hrow.
  refine (Forall2_transfer2 _ _ _ _ _ _ _ Hv Hm Hrow).
  simpl. intros i v [Hne Hval] Hnan Hspec.
  unfold mass_of_bin, is_sentinel in Hspec.
  destruct (Z.eqb_spec i sentinel) as [Heq|_]; [contradiction|].
  destruct (getitem_nonneg (Mstar <$> bins) i) as (x & Hx & Hget).
  { rewrite length_fmap. exact Hval. }
  rewrite Hget in Hspec. injection Hspec as <-.
  rewrite list_lookup_fmap in Hx.
  destruct (bins !! Z.to_nat i) as [e|] eqn:He; [|discriminate].
  injection Hx as <-. apply Hnan. reflexivity.
Qed.

Lemma no_sentinel_no_nan_witness :
  ∃ mstar,
    build_mstar [bins2] 0 [[0; 1]; [1; 0]] = Ok mstar
    ∧ Forall (Forall (fun v => isnan v = false)) mstar.
Proof.
  apply (no_sentinel_no_nan [bins2] 0 bins2 [[0; 1]; [1; 0]]).
  - reflexivity.
  - repeat constructor; unfold sentinel; simpl; lia.
  - repeat constructor; simpl; intros e [= <-]; reflexivity.
Defined.

(** C3 fails as stated: the grid has no sentinel cell and its one bin id
    is valid, yet the cell is NaN, because the catalog stores NaN as the
    mass of that bin. *)
Lemma nan_mass_without_sentinel :
  Forall (Forall (fun i => i ≠ sentinel ∧ valid_bin (length bins_nan) i)) [[0]]
  ∧ build_mstar [bins_nan] 0 [[0]] = Ok [[nan]]
  ∧ isnan nan = true.
Proof.
  split; [|split; reflexivity].
  repeat constructor; unfold sentinel; simpl; lia.
Qed.

(** C4 (the code departs from the claim).  On a galaxy with fewer than 99
    bins, a grid with a sentinel cell makes the gather raise IndexError:
    -99 is used as an index before the mask is applied. *)
Theorem sentinel_faults_on_short_table mstar_all ind1 bins
    (ind_binid : list (list Z)) :
  mstar_all !! ind1 = Some bins →
  (length bins < 99)%nat →
  Exists (Exists (fun i => i = sentinel)) ind_binid →
  build_mstar mstar_all ind1 ind_binid = Raise IndexError.
Proof.
  intros Hbins Hshort Hex.
  apply (build_mstar_out_of_bounds _ _ bins _ Hbins).
  eapply Exists_impl; [exact Hex|]. simpl. intros inds Hrow.
  eapply Exists_impl; [exact Hrow|]. simpl. intros i ->.
  unfold in_bounds, sentinel. lia.
Qed.

Lemma sentinel_faults_on_short_table_witness :
  Forall (Forall (fun i => i = sentinel ∨ valid_bin (length bins2) i)) [[1; -99]]
  ∧ build_mstar [bins2] 0 [[1; -99]] = Raise IndexError.
Proof.
  split.
  - constructor; [|constructor].
    constructor; [right; unfold valid_bin; simpl; lia|].
    constructor; [left; reflexivity|constructor].
  - apply (sentinel_faults_on_short_table [bins2] 0 bins2 [[1; -99]]).
    + reflexivity.
    + simpl. lia.
    + constructor. apply Exists_cons_tl. constructor. reflexivity.
Defined.

(** With 99 bins or more the sentinel is an index like any other, and a
    grid of sentinels and valid bin ids goes through. *)
Lemma sentinel_in_bounds_on_long_table n i :
  (99 ≤ n)%nat → i = sentinel ∨ valid_bin n i → in_bounds n i.
Proof.
  unfold in_bounds, valid_bin, sentinel. intros Hn [->|Hv]; lia.
Qed.

(** X19.  On a galaxy with 99 bins or more the sentinel is itself an
    index that numpy accepts, so the builder returns a grid for every
    bin-id grid made of sentinels and valid bin ids. *)
Lemma build_mstar_long_table mstar_all ind1 bins (ind_binid : list (list Z)) :
  mstar_all !! ind1 = Some bins →
  (99 ≤ length bins)%nat →
  Forall (Forall (fun i => i = sentinel ∨ valid_bin (length bins) i)) ind_binid →
  ∃ mstar, build_mstar mstar_all ind1 ind_binid = Ok mstar.
Proof.
  intros Hbins Hlong Hids.
  destruct (build_mstar_refines _ _ bins ind_binid Hbins) as (mstar & Hb & _).
  - eapply Forall_impl; [exact Hids|]. simpl. intros inds Hrow.
    eapply Forall_impl; [exact Hrow|]. simpl. intros i Hi.
    apply sentinel_in_bounds_on_long_table; assumption.
  - eauto.
Qed.

(** C10 (amended).  For every grid whose bin ids are all indices that
    numpy accepts on the galaxy's mass column, a cell holding a negative
    bin id other than -99 is neither a fault nor masked: it receives the
    mass stored that many positions from the end of the mass column. *)
Theorem negative_bin_aliases mstar_all ind1 bins (ind_binid : list (list Z))
    row col i :
  mstar_all !! ind1 = Some bins →
  Forall (Forall (in_bounds (length bins))) ind_binid →
  at2 ind_binid row col = Some i →
  i < 0 →
  i ≠ sentinel →
  ∃ mstar e,
    build_mstar mstar_all ind1 ind_binid = Ok mstar
    ∧ bins !! (length bins - Z.to_nat (- i))%nat = Some e
    ∧ at2 mstar row col = Some (Mstar e).
Proof.
  intros Hbins Hin Hi Hneg Hne.
  destruct (build_mstar_refines _ _ _ _ Hbins Hin) as (mstar & Hb & Hcells).
  destruct (Forall2_at2 _ _ _ _ _ _ Hcells Hi) as (v & Hv & Hspec).
  unfold mass_of_bin, is_sentinel in Hspec.
  destruct (Z.eqb_spec i sentinel) as [Heq|_]; [contradiction|].
  assert (Hrange : - Z.of_nat (length (Mstar <$> bins)) ≤ i < 0).
  { apply getitem_ok_in_bounds in Hspec. unfold in_bounds in Hspec. lia. }
  destruct (getitem_neg (Mstar <$> bins) i Hrange) as (x & Hx & Hget).
  rewrite Hget in Hspec. injection Hspec as <-.
  rewrite length_fmap, list_lookup_fmap in Hx.
  destruct (bins !! (length bins - Z.to_nat (- i))%nat) as [e|] eqn:He;
    [|discriminate].
  injection Hx as <-. exists mstar, e. auto.
Qed.

Lemma negative_bin_aliases_witness :
  ∃ mstar e,
    build_mstar [bins2] 0 [[0; -1]] = Ok mstar
    ∧ bins2 !! (length bins2 - Z.to_nat (- -1))%nat = Some e
    ∧ at2 mstar 0 1 = Some (Mstar e).
Proof.
  apply (negative_bin_aliases [bins2] 0 bins2 [[0; -1]] 0 1 (-1)).
  - reflexivity.
  - repeat constructor; unfold in_bounds; simpl; lia.
  - reflexivity.
  - lia.
  - unfold sentinel. lia.
Defined.

(** C10 fails as stated: a negative bin id that reaches further back than
    the mass column is long is a fault. *)
Lemma negative_bin_beyond_table :
  at2 [[-3]] 0 0 = Some (-3)
  ∧ -3 < 0
  ∧ -3 ≠ sentinel
  ∧ build_mstar [bins2] 0 [[-3]] = Raise IndexError.
Proof.
  repeat split; try reflexivity. unfold sentinel. lia.
Qed.

(** * The crop *)

Section Slice.

Context {A : Type}.
Implicit Types (l : list A) (n : Z) (len : nat).

Lemma slice_stop_le len n : (Np.slice_stop len n ≤ len)%nat.
Proof.
  unfold Np.slice_stop. destruct (Z.ltb_spec n 0); lia.
Qed.

Lemma slice_stop_nonneg len n :
  0 ≤ n → Np.slice_stop len n = (Z.to_nat n `min` len)%nat.
Proof.
  intros Hn. unfold Np.slice_stop. destruct (Z.ltb_spec n 0); lia.
Qed.

Lemma slice_stop_negative len n :
  n < 0 → Np.slice_stop len n = (len - Z.to_nat (- n))%nat.
Proof.
  intros Hn. unfold Np.slice_stop. destruct (Z.ltb_spec n 0); lia.
Qed.

Lemma slice_to_length l n :
  length (Np.slice_to n l) = Np.slice_stop (length l) n.
Proof.
  unfold Np.slice_to. rewrite length_take.
  pose proof (slice_stop_le (length l) n). lia.
Qed.

Lemma slice_to_lookup l n i :
  (i < Np.slice_stop (length l) n)%nat → Np.slice_to n l !! i = l !! i.
Proof. intros Hi. unfold Np.slice_to. apply lookup_take_lt, Hi. Qed.

Lemma slice_to_all l n :
  Z.of_nat (length l) ≤ n → Np.slice_to n l = l.
Proof.
  intros Hn. unfold Np.slice_to. apply take_ge.
  rewrite slice_stop_nonneg by lia. lia.
Qed.

End Slice.

Section Crop.

Context {A : Type}.
Implicit Types (a : list (list A)) (n : Z) (r c : nat).

Lemma slice_to2_rect a r c n :
  rect r c a →
  rect (Np.slice_stop r n) (Np.slice_stop c n) (Np.slice_to2 n a).
Proof.
  intros [Hr Hc]. unfold Np.slice_to2. split.
  - rewrite length_map, slice_to_length, Hr. reflexivity.
  - apply Forall_fmap. unfold Np.slice_to at 2. apply Forall_take.
    eapply Forall_impl; [exact Hc|]. simpl. intros row <-.
    apply slice_to_length.
Qed.

Lemma slice_to2_at2 a r c n i j :
  rect r c a →
  (i < Np.slice_stop r n)%nat → (j < Np.slice_stop c n)%nat →
  at2 (Np.slice_to2 n a) i j = at2 a i j.
Proof.
  intros [Hr Hc] Hi Hj. unfold at2, Np.slice_to2.
  change (map (Np.slice_to n)) with (fmap (M := list) (Np.slice_to (A := A) n)).
  rewrite list_lookup_fmap, slice_to_lookup by (rewrite Hr; exact Hi).
  destruct (a !! i) as [row|] eqn:Hrow; [|reflexivity]. simpl.
  apply slice_to_lookup.
  rewrite (Forall_lookup_1 _ _ _ _ Hc Hrow). exact Hj.
Qed.

Lemma slice_to2_all a r c n :
  rect r c a → Z.of_nat r ≤ n → Z.of_nat c ≤ n → Np.slice_to2 n a = a.
Proof.
  intros [Hr Hc] Hrn Hcn. unfold Np.slice_to2.
  rewrite (slice_to_all a) by lia.
  rewrite <- (list_fmap_id a) at 2.
  apply Forall_fmap_ext.
  eapply Forall_impl; [exact Hc|]. simpl. intros row Hrow.
  apply slice_to_all. lia.
Qed.

End Crop.

(** C7.  For every grid and every reference dimension N from 0 up to the
    size of the grid, the crop is the N by N grid whose cell (i, j) is
    the cell (i, j) of the grid: the sub-grid anchored at the first row
    and the first column.  With N equal to the size of the grid the crop
    is the grid itself. *)
Theorem crop_is_top_left {A} (a : list (list A)) r c (len_x : Z) :
  rect r c a →
  0 ≤ len_x →
  len_x ≤ Z.of_nat r →
  len_x ≤ Z.of_nat c →
  rect (Z.to_nat len_x) (Z.to_nat len_x) (Np.slice_to2 len_x a)
  ∧ (∀ i j, (i < Z.to_nat len_x)%nat → (j < Z.to_nat len_x)%nat →
       at2 (Np.slice_to2 len_x a) i j = at2 a i j)
  ∧ (len_x = Z.of_nat r → len_x = Z.of_nat c → Np.slice_to2 len_x a = a).
Proof.
  intros Hrect H0 Hr Hc.
  assert (Er : Np.slice_stop r len_x = Z.to_nat len_x)
    by (rewrite slice_stop_nonneg by lia; lia).
  assert (Ec : Np.slice_stop c len_x = Z.to_nat len_x)
    by (rewrite slice_stop_nonneg by lia; lia).
  split; [|split].
  - rewrite <- Er at 1. rewrite <- Ec. apply slice_to2_rect, Hrect.
  - intros i j Hi Hj. apply (slice_to2_at2 a r c); [exact Hrect|lia|lia].
  - intros Hsr Hsc. apply (slice_to2_all a r c); [exact Hrect|lia|lia].
Qed.

Lemma crop_is_top_left_witness :
  rect 1 1 (Np.slice_to2 1 [[f5; f7]; [f7; nan]])
  ∧ (∀ i j, (i < Z.to_nat 1)%nat → (j < Z.to_nat 1)%nat →
       at2 (Np.slice_to2 1 [[f5; f7]; [f7; nan]]) i j
       = at2 [[f5; f7]; [f7; nan]] i j)
  ∧ (1 = Z.of_nat 2 → 1 = Z.of_nat 2 →
     Np.slice_to2 1 [[f5; f7]; [f7; nan]] = [[f5; f7]; [f7; nan]]).
Proof.
  apply (crop_is_top_left [[f5; f7]; [f7; nan]] 2 2 1).
  - split; [reflexivity|repeat constructor].
  - lia.
  - simpl. lia.
  - simpl. lia.
Defined.

(** C6 (amended).  Whenever the builder returns the mass grid, its shape
    is the shape of the bin-id grid; after the crop with a reference
    dimension N that is not negative, each axis is the smaller of N and
    that axis of the grid, so both axes equal N when N exceeds neither
    axis of the grid. *)
Theorem shapes_of_mstar_and_crop mstar_all ind1 (ind_binid : list (list Z))
    mstar r c (len_x : Z) :
  rect r c ind_binid →
  build_mstar mstar_all ind1 ind_binid = Ok mstar →
  0 ≤ len_x →
  rect r c mstar
  ∧ rect (Z.to_nat len_x `min` r) (Z.to_nat len_x `min` c)
      (Np.slice_to2 len_x mstar)
  ∧ (len_x ≤ Z.of_nat r → len_x ≤ Z.of_nat c →
     rect (Z.to_nat len_x) (Z.to_nat len_x) (Np.slice_to2 len_x mstar)).
Proof.
  intros Hrect Hb H0.
  pose proof (build_mstar_shape _ _ _ _ _ _ Hb Hrect) as Hshape.
  pose proof (slice_to2_rect mstar r c len_x Hshape) as Hcrop.
  rewrite !slice_stop_nonneg in Hcrop by exact H0.
  split; [exact Hshape|]. split; [exact Hcrop|].
  intros Hr Hc.
  replace (Z.to_nat len_x `min` r)%nat with (Z.to_nat len_x) in Hcrop by lia.
  replace (Z.to_nat len_x `min` c)%nat with (Z.to_nat len_x) in Hcrop by lia.
  exact Hcrop.
Qed.

Lemma shapes_of_mstar_and_crop_witness :
  rect 2 2 [[f5; f7]; [f7; f5]]
  ∧ rect (Z.to_nat 1 `min` 2) (Z.to_nat 1 `min` 2)
      (Np.slice_to2 1 [[f5; f7]; [f7; f5]])
  ∧ (1 ≤ Z.of_nat 2 → 1 ≤ Z.of_nat 2 →
     rect (Z.to_nat 1) (Z.to_nat 1) (Np.slice_to2 1 [[f5; f7]; [f7; f5]])).
Proof.
  apply (shapes_of_mstar_and_crop [bins2] 0 [[0; 1]; [1; 0]]
           [[f5; f7]; [f7; f5]] 2 2 1).
  - split; [reflexivity|repeat constructor].
  - reflexivity.
  - lia.
Defined.

(** C6 fails as stated: with a reference dimension of 3 on a 2 by 2 grid
    the slice stops at the grid, and the crop is 2 by 2, not 3 by 3. *)
Lemma crop_beyond_grid :
  build_mstar [bins2] 0 [[0; 1]; [1; 0]] = Ok [[f5; f7]; [f7; f5]]
  ∧ rect 2 2 (Np.slice_to2 3 [[f5; f7]; [f7; f5]])
  ∧ ¬ rect 3 3 (Np.slice_to2 3 [[f5; f7]; [f7; f5]]).
Proof.
  split; [reflexivity|]. split.
  - split; [reflexivity|repeat constructor].
  - intros [Hrows _]. discriminate Hrows.
Qed.

(** * The csv file *)

Section SerializerFacts.

Variable float_repr : float → string.

Lemma to_csv_length (a : list (list float)) :
  length (to_csv float_repr a) = S (length a).
Proof. unfold to_csv. simpl. rewrite length_fmap. reflexivity. Qed.

Lemma to_csv_header (a : list (list float)) r c :
  rect r c a → (0 < r)%nat →
  to_csv float_repr a !! 0%nat = Some (pretty <$> seq 0 c).
Proof.
  intros [Hr Hc] Hpos. unfold to_csv. simpl. do 2 f_equal.
  destruct a as [|row a]; simpl in *; [lia|].
  inversion Hc; subst. reflexivity.
Qed.

Lemma to_csv_row (a : list (list float)) i :
  to_csv float_repr a !! S i = fmap (cell_text float_repr) <$> a !! i.
Proof. unfold to_csv. simpl. apply list_lookup_fmap. Qed.

Lemma to_csv_fields (a : list (list float)) r c :
  rect r c a → (0 < r)%nat →
  Forall (fun line => length line = c) (to_csv float_repr a).
Proof.
  intros [Hr Hc] Hpos. unfold to_csv. constructor.
  - rewrite length_fmap, length_seq.
    destruct a as [|row a]; simpl in *; [lia|].
    inversion Hc; subst. reflexivity.
  - apply Forall_fmap. eapply Forall_impl; [exact Hc|]. simpl.
    intros row <-. apply length_map.
Qed.

End SerializerFacts.

(** C8 (amended).  The file holds one line per grid row after a first
    line of column labels 0, 1, ... (the header is written); no row index
    column is written, so line i + 1 holds the text of the cells of grid
    row i, one field per column and in the order of the columns. *)
Theorem to_csv_header_then_rows float_repr (a : list (list float)) r c :
  rect r c a →
  (0 < r)%nat →
  length (to_csv float_repr a) = S r
  ∧ to_csv float_repr a !! 0%nat = Some (pretty <$> seq 0 c)
  ∧ (∀ i, to_csv float_repr a !! S i = fmap (cell_text float_repr) <$> a !! i)
  ∧ Forall (fun line => length line = c) (to_csv float_repr a).
Proof.
  intros Hrect Hpos. split; [|split; [|split]].
  - rewrite to_csv_length. destruct Hrect as [-> _]. reflexivity.
  - eapply to_csv_header; eassumption.
  - apply to_csv_row.
  - eapply to_csv_fields; eassumption.
Qed.

Lemma to_csv_header_then_rows_witness :
  length (to_csv repr_integral [[f5; nan]; [f7; f5]]) = 3%nat
  ∧ to_csv repr_integral [[f5; nan]; [f7; f5]] !! 0%nat
    = Some (pretty <$> seq 0 2)
  ∧ (∀ i, to_csv repr_integral [[f5; nan]; [f7; f5]] !! S i
          = fmap (cell_text repr_integral) <$> [[f5; nan]; [f7; f5]] !! i)
  ∧ Forall (fun line => length line = 2%nat)
      (to_csv repr_integral [[f5; nan]; [f7; f5]]).
Proof.
  apply (to_csv_header_then_rows repr_integral [[f5; nan]; [f7; f5]] 2 2).
  - split; [reflexivity|repeat constructor].
  - lia.
Defined.

(** C8 fails as stated: a grid of one row is written as two lines, the
    first of them the column label. *)
Lemma to_csv_writes_header :
  to_csv repr_integral [[f5]] = [["0"]; ["5.0"]]
  ∧ length (to_csv repr_integral [[f5]]) ≠ length [[f5]].
Proof.
  split; [vm_compute; reflexivity|]. simpl. lia.
Qed.

(** * The run *)

Lemma where_from_none {A} (cond : A → bool) (a : list A) k :
  Forall (fun x => cond x = false) a → Np.where_from k cond a = [].
Proof.
  intros Hnone. revert k.
  induction Hnone as [|x a Hx _ IH]; intros k; simpl; [reflexivity|].
  rewrite Hx. apply IH.
Qed.

Lemma char_equal_true (a b : string) :
  char_equal a b = true ↔ rstrip a = rstrip b.
Proof. apply String.eqb_eq. Qed.

Lemma char_equal_false (a b : string) :
  char_equal a b = false ↔ rstrip a ≠ rstrip b.
Proof. apply String.eqb_neq. Qed.

(** The first position at or after [k] that [np.where] reports is the
    first element that meets the condition. *)
Lemma where_from_first {A} (cond : A → bool) (a : list A) k j rest :
  Np.where_from k cond a = j :: rest →
  ∃ i x, j = (k + i)%nat ∧ a !! i = Some x ∧ cond x = true
         ∧ ∀ i' x', (i' < i)%nat → a !! i' = Some x' → cond x' = false.
Proof.
  revert k. induction a as [|y a IH]; intros k; simpl; [discriminate|].
  destruct (cond y) eqn:Hy.
  - intros [= <- _]. exists 0%nat, y. repeat split; [lia|assumption|].
    intros i' x' Hlt. lia.
  - intros Hw. destruct (IH _ Hw) as (i & x & -> & Hx & Hc & Hfirst).
    exists (S i), x. repeat split; [lia|assumption|assumption|].
    intros [|i'] x' Hlt; simpl.
    + intros [= <-]. exact Hy.
    + apply Hfirst. lia.
Qed.

(** The row that the resolution returns is the first whose identifier,
    trailing white space apart, is the one asked for. *)
Lemma select_galaxy_first plateifus plateifu ind1 :
  select_galaxy plateifus plateifu = Ok ind1 →
  (rstrip <$> plateifus) !! ind1 = Some (rstrip plateifu)
  ∧ ∀ j, (j < ind1)%nat → (rstrip <$> plateifus) !! j ≠ Some (rstrip plateifu).
Proof.
  unfold select_galaxy, Np.where_.
  destruct (Np.where_from 0 (char_equal plateifu) plateifus) as [|j rest] eqn:Hw;
    [discriminate|].
  intros [= <-].
  destruct (where_from_first _ _ _ _ _ Hw) as (i & x & -> & Hx & Hc & Hfirst).
  apply char_equal_true in Hc. simpl. split.
  - rewrite list_lookup_fmap, Hx. simpl. congruence.
  - intros j' Hlt. rewrite list_lookup_fmap.
    destruct (plateifus !! j') as [x'|] eqn:Hj'; simpl; [|discriminate].
    specialize (Hfirst j' x' Hlt Hj'). apply char_equal_false in Hfirst.
    congruence.
Qed.

Lemma select_galaxy_absent plateifus plateifu :
  rstrip plateifu ∉ rstrip <$> plateifus →
  select_galaxy plateifus plateifu = Raise IndexError.
Proof.
  intros Habs. unfold select_galaxy, Np.where_.
  rewrite where_from_none; [reflexivity|].
  apply Forall_forall. intros x Hx. apply char_equal_false.
  intros Heq. apply Habs. rewrite Heq.
  apply list_elem_of_fmap_2, Hx.
Qed.

Ltac run_simpl :=
  unfold run, fits_open, write_csv, lift, emit,
    mbind, prog_bind, mret, prog_ret in *; simpl in *.

(** C5 (amended).  For every galaxy identifier that no element of the
    catalog's galaxy-identifier column equals once the trailing white
    space of both is set aside (which is how the column is compared), the
    index resolution raises IndexError, the out-of-bounds fault of taking
    the first of no matches; the run ends on that error with the catalog
    open and nothing written. *)
Theorem absent_galaxy_raises_index_error float_repr e fin plateifu :
  firefly e = Ok fin →
  rstrip plateifu ∉ rstrip <$> plateifus fin →
  select_galaxy (plateifus fin) plateifu = Raise IndexError
  ∧ run float_repr e plateifu [] = (Raise IndexError, [FitsOpen (path_firefly e)]).
Proof.
  intros Hfin Habs.
  pose proof (select_galaxy_absent _ _ Habs) as Hsel.
  split; [exact Hsel|].
  run_simpl. rewrite Hfin. simpl. rewrite Hsel. reflexivity.
Qed.

Lemma absent_galaxy_raises_index_error_witness :
  select_galaxy (plateifus scenario_catalog) "9999-99" = Raise IndexError
  ∧ run repr_integral (env_of scenario_catalog) "9999-99" []
    = (Raise IndexError, [FitsOpen (path_firefly (env_of scenario_catalog))]).
Proof.
  apply (absent_galaxy_raises_index_error repr_integral
           (env_of scenario_catalog) scenario_catalog "9999-99").
  - reflexivity.
  - vm_compute. intros Hin. apply list_elem_of_singleton in Hin. discriminate Hin.
Defined.

(** C5 fails as stated: the error of an absent identifier is IndexError,
    not NotFoundError; and an identifier that is absent from the column
    only by its trailing white space is found. *)
Lemma absent_galaxy_not_found_error :
  ("9999-99" ∉ ["0001-01"])
  ∧ select_galaxy ["0001-01"] "9999-99" = Raise IndexError
  ∧ select_galaxy ["0001-01"] "9999-99" ≠ Raise NotFoundError
  ∧ ("0001-01 " ∉ ["0001-01"])
  ∧ select_galaxy ["0001-01"] "0001-01 " = Ok 0%nat.
Proof.
  split; [|split; [|split; [|split]]].
  - intros Hin. apply list_elem_of_singleton in Hin. discriminate Hin.
  - reflexivity.
  - discriminate.
  - intros Hin. apply list_elem_of_singleton in Hin. discriminate Hin.
  - reflexivity.
Qed.

(** C9 (amended).  The catalog handle acquired at the start of the run
    is released at the end of every run that completes; a run that an
    error ends after the open stops with the handle still held, since the
    release is the last statement and nothing guards it. *)
Theorem catalog_released_on_success_only float_repr e plateifu r log :
  run float_repr e plateifu [] = (r, log) →
  (is_ok r = true → held log = false)
  ∧ (is_ok r = false → is_ok (firefly e) = true → held log = true).
Proof.
  run_simpl.
  destruct (firefly e) as [fin|err]; simpl.
  2:{ intros [= <- <-]. split; discriminate. }
  destruct (select_galaxy (plateifus fin) plateifu) as [ind1|err]; simpl.
  2:{ intros [= <- <-]. split; [discriminate|reflexivity]. }
  destruct (select_binid (spaxel_binid fin) ind1) as [ind_binid|err]; simpl.
  2:{ intros [= <- <-]. split; [discriminate|reflexivity]. }
  destruct (build_mstar (mstar_all fin) ind1 ind_binid) as [mstar|err]; simpl.
  2:{ intros [= <- <-]. split; [discriminate|reflexivity]. }
  destruct (naxis1 e plateifu) as [len_x|err]; simpl.
  2:{ intros [= <- <-]. split; [discriminate|reflexivity]. }
  destruct (writable e _); simpl.
  2:{ intros [= <- <-]. split; [discriminate|reflexivity]. }
  intros [= <- <-]. split; [reflexivity|discriminate].
Qed.

Lemma catalog_released_on_success_only_witness :
  (is_ok (Ok tt) = true →
   held (snd (run repr_integral (env_of long_catalog) "0001-01" [])) = false)
  ∧ (is_ok (Ok tt) = false → is_ok (firefly (env_of long_catalog)) = true →
     held (snd (run repr_integral (env_of long_catalog) "0001-01" [])) = true).
Proof.
  apply (catalog_released_on_success_only repr_integral (env_of long_catalog) "0001-01").
  vm_compute. reflexivity.
Defined.

(** C9 fails as stated: the run for an identifier that the catalog does
    not have ends on IndexError after the open, and the log has no close. *)
Lemma catalog_held_after_error :
  run repr_integral (env_of scenario_catalog) "9999-99" []
  = (Raise IndexError, [FitsOpen "../data/manga_firefly-v2_1_2-STELLARPOP.fits"])
  ∧ held [FitsOpen "../data/manga_firefly-v2_1_2-STELLARPOP.fits"] = true.
Proof. split; reflexivity. Qed.

(** C2 (the code departs from the claim).  On the scenario, and on every
    catalog where the galaxy's bin-id grid has a sentinel cell and its
    mass table has fewer than 99 bins, the gather raises IndexError on
    the cell that holds -99: no mass grid is derived, the run ends on
    that error right after the catalog was opened, and no file is
    written. *)
Theorem run_faults_on_sentinel_short_table float_repr e fin plateifu ind1
    (ind_binid : list (list Z)) bins :
  firefly e = Ok fin →
  select_galaxy (plateifus fin) plateifu = Ok ind1 →
  select_binid (spaxel_binid fin) ind1 = Ok ind_binid →
  mstar_all fin !! ind1 = Some bins →
  (length bins < 99)%nat →
  Exists (Exists (fun i => i = sentinel)) ind_binid →
  build_mstar (mstar_all fin) ind1 ind_binid = Raise IndexError
  ∧ run float_repr e plateifu []
    = (Raise IndexError, [FitsOpen (path_firefly e)]).
Proof.
  intros Hfin Hsel Hgrid Hbins Hshort Hex.
  assert (Hb : build_mstar (mstar_all fin) ind1 ind_binid = Raise IndexError).
  { apply (build_mstar_out_of_bounds _ _ bins _ Hbins).
    eapply Exists_impl; [exact Hex|]. simpl. intros inds Hrow.
    eapply Exists_impl; [exact Hrow|]. simpl. intros i ->.
    unfold in_bounds, sentinel. lia. }
  split; [exact Hb|].
  unfold run, fits_open, write_csv, lift, emit, mbind, prog_bind, mret, prog_ret.
  rewrite Hfin. simpl. rewrite Hsel, Hgrid, Hb. reflexivity.
Qed.

Lemma run_faults_on_sentinel_short_table_witness :
  build_mstar (mstar_all scenario_catalog) 0 [[0; -99]; [1; 0]]
  = Raise IndexError
  ∧ run repr_integral (env_of scenario_catalog) "0001-01" []
    = (Raise IndexError, [FitsOpen (path_firefly (env_of scenario_catalog))]).
Proof.
  apply (run_faults_on_sentinel_short_table repr_integral
           (env_of scenario_catalog) scenario_catalog "0001-01" 0
           [[0; -99]; [1; 0]] bins2).
  - reflexivity.
  - reflexivity.
  - reflexivity.
  - reflexivity.
  - simpl. lia.
  - constructor. apply Exists_cons_tl. constructor. reflexivity.
Defined.

(** The scenario's catalog is the one of the specification: the grid
    [[0,-99],[1,0]] and the masses 5.0 and 7.0. *)
Example scenario_catalog_tables :
  select_binid (spaxel_binid scenario_catalog) 0 = Ok [[0; -99]; [1; 0]]
  ∧ Mstar <$> bins2 = [f5; f7].
Proof. split; reflexivity. Qed.

(** * Further properties of the stellar mass array *)

Lemma build_mstar_iff_rows mstar_all ind1 (ind_binid : list (list Z)) mstar :
  build_mstar mstar_all ind1 ind_binid = Ok mstar
  ↔ Forall2 (row_result mstar_all ind1) ind_binid mstar.
Proof.
  split.
  - apply build_mstar_rows.
  - intros Hrows.
    pose proof (for_rows_ok _ _ _ _ Hrows [] (replicate (length ind_binid)
      (replicate (Np.ncols ind_binid) nan)) []) as Hloop.
    simpl in Hloop. rewrite !app_nil_r in Hloop.
    unfold build_mstar, Np.full_nan, Np.shape. simpl.
    apply Hloop, length_replicate.
Qed.

Lemma build_mstar_raises mstar_all ind1 (ind_binid : list (list Z)) e :
  build_mstar mstar_all ind1 ind_binid = Raise e → e = IndexError.
Proof.
  intros Hr.
  assert (Hdec : Forall (fun inds => is_ok (gather_mstar mstar_all ind1 inds) = true) ind_binid
                 ∨ Exists (fun inds => is_ok (gather_mstar mstar_all ind1 inds) = false) ind_binid).
  { clear Hr. induction ind_binid as [|inds rows [IH|IH]].
    - left. constructor.
    - destruct (is_ok (gather_mstar mstar_all ind1 inds)) eqn:Hok.
      + left. constructor; assumption.
      + right. constructor. assumption.
    - right. apply Exists_cons_tl. assumption. }
  destruct Hdec as [Hall|Hex].
  - assert (Houts : ∃ outs, Forall2 (row_result mstar_all ind1) ind_binid outs).
    { clear Hr. induction Hall as [|inds rows Hok _ [outs IH]].
      - exists []. constructor.
      - destruct (gather_mstar mstar_all ind1 inds) as [g|e'] eqn:Hg; [|discriminate].
        exists (mask inds g :: outs). constructor; [exists g; auto|exact IH]. }
    destruct Houts as [outs Houts].
    apply build_mstar_iff_rows in Houts. congruence.
  - unfold build_mstar in Hr. rewrite (for_rows_raise _ _ _ Hex) in Hr.
    congruence.
Qed.

Lemma row_result_in_bounds mstar_all ind1 bins inds out :
  mstar_all !! ind1 = Some bins →
  row_result mstar_all ind1 inds out →
  Forall (in_bounds (length bins)) inds
  ∧ Forall2 (fun i v => mass_of_bin (Mstar <$> bins) i = Ok v) inds out.
Proof.
  intros Hbins (gathered & Hg & ->).
  unfold gather_mstar in Hg. rewrite Hbins in Hg.
  apply take_Forall2 in Hg. split.
  - rewrite <- (length_fmap Mstar).
    clear Hbins. induction Hg as [|i x inds gathered Hi _ IH]; constructor.
    + eapply getitem_ok_in_bounds, Hi.
    + exact IH.
  - apply mask_mass_of_bin, Hg.
Qed.

Lemma row_result_no_galaxy mstar_all ind1 inds out :
  mstar_all !! ind1 = None → ¬ row_result mstar_all ind1 inds out.
Proof.
  intros Hnone (gathered & Hg & _).
  unfold gather_mstar in Hg. rewrite Hnone in Hg. discriminate.
Qed.

(** X1.  The builder returns a grid exactly when the bin-id grid has no
    row, or the galaxy has a row in the mass table and numpy accepts
    every bin id on it; in every other case it raises IndexError, and it
    never raises anything else. *)
Theorem build_mstar_outcome mstar_all ind1 (ind_binid : list (list Z)) :
  (is_ok (build_mstar mstar_all ind1 ind_binid) = true
   ↔ ind_binid = []
     ∨ ∃ bins, mstar_all !! ind1 = Some bins
               ∧ Forall (Forall (in_bounds (length bins))) ind_binid)
  ∧ (is_ok (build_mstar mstar_all ind1 ind_binid) = false
     ↔ build_mstar mstar_all ind1 ind_binid = Raise IndexError).
Proof.
  split; [split|split].
  - destruct (build_mstar mstar_all ind1 ind_binid) as [mstar|e] eqn:Hb;
      [intros _|discriminate].
    apply build_mstar_iff_rows in Hb.
    destruct ind_binid as [|inds rows]; [left; reflexivity|right].
    destruct (mstar_all !! ind1) as [bins|] eqn:Hbins.
    + exists bins. split; [reflexivity|].
      clear -Hb Hbins.
      induction Hb as [|i o is_ os Hrow _ IH]; constructor.
      * eapply row_result_in_bounds; eassumption.
      * exact IH.
    + inversion Hb as [|? out ? outs Hrow _]; subst.
      destruct (row_result_no_galaxy _ _ _ _ Hbins Hrow).
  - intros [->|(bins & Hbins & Hin)]; [reflexivity|].
    destruct (build_mstar_refines _ _ _ _ Hbins Hin) as (mstar & -> & _).
    reflexivity.
  - destruct (build_mstar mstar_all ind1 ind_binid) as [mstar|e] eqn:Hb;
      [discriminate|intros _].
    apply build_mstar_raises in Hb as ->. reflexivity.
  - intros ->. reflexivity.
Qed.

(** X2.  The rows are built one by one, each from its own bin ids only:
    the builder returns a grid on two stacked bin-id grids exactly when
    it does on each, and the grid is then the two grids stacked. *)
Theorem build_mstar_app mstar_all ind1 (g1 g2 : list (list Z)) mstar :
  build_mstar mstar_all ind1 (g1 ++ g2) = Ok mstar
  ↔ ∃ m1 m2, build_mstar mstar_all ind1 g1 = Ok m1
             ∧ build_mstar mstar_all ind1 g2 = Ok m2
             ∧ mstar = m1 ++ m2.
Proof.
  rewrite build_mstar_iff_rows, Forall2_app_inv_l.
  split; intros (m1 & m2 & H1 & H2 & Hm); exists m1, m2.
  - rewrite !build_mstar_iff_rows. auto.
  - rewrite !build_mstar_iff_rows in *. auto.
Qed.

Lemma isnan_true x : isnan x = true ↔ x = nan.
Proof.
  split; [|intros ->; reflexivity].
  destruct x; simpl; try discriminate. reflexivity.
Qed.

(** X3.  In a grid that the builder returns, a cell is NaN exactly when
    its bin id is the sentinel or the catalog stores NaN as the mass the
    bin id points to. *)
Theorem nan_cells_exactly mstar_all ind1 bins (ind_binid : list (list Z))
    mstar row col i v :
  mstar_all !! ind1 = Some bins →
  build_mstar mstar_all ind1 ind_binid = Ok mstar →
  at2 ind_binid row col = Some i →
  at2 mstar row col = Some v →
  (isnan v = true
   ↔ i = sentinel ∨ Np.getitem (Mstar <$> bins) i = Ok nan).
Proof.
  intros Hbins Hb Hi Hv.
  apply build_mstar_iff_rows in Hb.
  assert (Hcells : Forall2 (Forall2 (fun i v =>
            mass_of_bin (Mstar <$> bins) i = Ok v)) ind_binid mstar).
  { eapply Forall2_impl; [exact Hb|]. simpl. intros inds out Hrow.
    eapply row_result_in_bounds; eassumption. }
  destruct (Forall2_at2 _ _ _ _ _ _ Hcells Hi) as (v' & Hv' & Hspec).
  rewrite Hv in Hv'. injection Hv' as <-.
  unfold mass_of_bin, is_sentinel in Hspec.
  rewrite isnan_true.
  destruct (Z.eqb_spec i sentinel) as [Heq|Hne].
  - injection Hspec as <-. split; auto.
  - split.
    + intros ->. right. exact Hspec.
    + intros [Heq|Hget]; [contradiction|]. congruence.
Qed.

Lemma nan_cells_exactly_witness :
  isnan nan = true
  ↔ -99 = sentinel ∨ Np.getitem (Mstar <$> bins99) (-99) = Ok nan.
Proof.
  apply (nan_cells_exactly [bins99] 0 bins99 [[1; -99]] [[f7; nan]] 0 1 (-99) nan);
    reflexivity.
Defined.

(** ** The fields that the script does not read *)

Lemma gather_mstar_masses mstar_all ind1 inds :
  gather_mstar mstar_all ind1 inds
  = match (fmap (M:=list) Mstar <$> mstar_all) !! ind1 with
    | None => Raise IndexError
    | Some column => Np.take column inds
    end.
Proof.
  unfold gather_mstar. rewrite list_lookup_fmap.
  destruct (mstar_all !! ind1); reflexivity.
Qed.

Lemma for_rows_ext t t' ind1 rows :
  (∀ inds, gather_mstar t ind1 inds = gather_mstar t' ind1 inds) →
  ∀ row mstar, for_rows t ind1 row rows mstar = for_rows t' ind1 row rows mstar.
Proof.
  intros Hext. induction rows as [|inds rows IH]; intros row mstar; simpl.
  - reflexivity.
  - unfold row_step. rewrite Hext.
    destruct (gather_mstar t' ind1 inds); result_simpl; [apply IH|reflexivity].
Qed.

Lemma build_mstar_masses t t' ind1 (ind_binid : list (list Z)) :
  fmap (M:=list) Mstar <$> t = fmap (M:=list) Mstar <$> t' →
  build_mstar t ind1 ind_binid = build_mstar t' ind1 ind_binid.
Proof.
  intros Heq. unfold build_mstar. apply for_rows_ext.
  intros inds. rewrite !gather_mstar_masses, Heq. reflexivity.
Qed.

Lemma select_binid_binids sb ind1 :
  select_binid sb ind1
  = match (fmap (M:=list) (fmap (M:=list) binid) <$> sb) !! ind1 with
    | None => Raise IndexError
    | Some page => Ok (fmap (M:=list) astype_int <$> page)
    end.
Proof.
  unfold select_binid. rewrite list_lookup_fmap.
  destruct (sb !! ind1) as [page|]; simpl; [|reflexivity].
  f_equal. rewrite <- list_fmap_compose. apply list_fmap_ext.
  intros _ row _. simpl.
  change (map (fun c => astype_int (binid c)) row)
    with ((astype_int ∘ binid) <$> row).
  apply list_fmap_compose.
Qed.

(** X4.  The run reads the galaxy identifiers, the bin id of every
    spaxel and the mass of every bin, and nothing else of the catalog:
    two catalogs that agree on these three, in the same surroundings,
    give the same result and the same log, whatever their mass errors
    and spaxel coordinates are. *)
Theorem run_reads_three_columns float_repr e e' fin fin' plateifu log :
  firefly e = Ok fin →
  firefly e' = Ok fin' →
  path_data e = path_data e' →
  naxis1 e plateifu = naxis1 e' plateifu →
  writable e (fout_path e plateifu) = writable e' (fout_path e' plateifu) →
  plateifus fin = plateifus fin' →
  fmap (M:=list) (fmap (M:=list) binid) <$> spaxel_binid fin = fmap (M:=list) (fmap (M:=list) binid) <$> spaxel_binid fin' →
  fmap (M:=list) Mstar <$> mstar_all fin = fmap (M:=list) Mstar <$> mstar_all fin' →
  run float_repr e plateifu log = run float_repr e' plateifu log.
Proof.
  intros Hfin Hfin' Hdata Hdim Hw Hids Hbinid Hmass.
  assert (Hout : fout_path e plateifu = fout_path e' plateifu)
    by (unfold fout_path; rewrite Hdata; reflexivity).
  assert (Hcat : path_firefly e = path_firefly e')
    by (unfold path_firefly; rewrite Hdata; reflexivity).
  unfold run, fits_open, write_csv, lift, emit, mbind, prog_bind, mret, prog_ret.
  rewrite Hfin, Hfin', Hcat, Hids. simpl.
  destruct (select_galaxy (plateifus fin') plateifu) as [ind1|err]; [|reflexivity].
  rewrite !select_binid_binids, Hbinid.
  destruct ((fmap (M:=list) (fmap (M:=list) binid) <$> spaxel_binid fin') !! ind1) as [page|];
    [|reflexivity].
  rewrite (build_mstar_masses _ _ ind1 _ Hmass).
  destruct (build_mstar (mstar_all fin') ind1 _) as [mstar|err]; [|reflexivity].
  rewrite Hdim. destruct (naxis1 e' plateifu) as [len_x|err]; [|reflexivity].
  rewrite Hw, Hout. reflexivity.
Qed.

Lemma run_reads_three_columns_witness :
  run repr_integral (env_of long_catalog) "0001-01" []
  = run repr_integral (env_of long_catalog_other_fields) "0001-01" [].
Proof.
  apply (run_reads_three_columns repr_integral
           (env_of long_catalog) (env_of long_catalog_other_fields)
           long_catalog long_catalog_other_fields "0001-01" []);
    reflexivity.
Defined.

(** ** The crop, for every header value *)

(** X5.  Whatever integer the header gives, the crop never faults and
    never grows the grid: it keeps the rows and columns from the first
    up to a stop that a negative value counts from the end and that the
    grid's size bounds, and every cell it keeps is the cell of the grid
    at the same place. *)
Theorem crop_any_dimension {A} (a : list (list A)) r c (len_x : Z) :
  rect r c a →
  rect (Np.slice_stop r len_x) (Np.slice_stop c len_x) (Np.slice_to2 len_x a)
  ∧ (∀ len, (Np.slice_stop len len_x ≤ len)%nat
            ∧ (0 ≤ len_x → Np.slice_stop len len_x = (Z.to_nat len_x `min` len)%nat)
            ∧ (len_x < 0 → Np.slice_stop len len_x = (len - Z.to_nat (- len_x))%nat))
  ∧ (∀ i j, (i < Np.slice_stop r len_x)%nat → (j < Np.slice_stop c len_x)%nat →
       at2 (Np.slice_to2 len_x a) i j = at2 a i j).
Proof.
  intros Hrect. split; [|split].
  - apply slice_to2_rect, Hrect.
  - intros len. split; [apply slice_stop_le|]. split.
    + apply slice_stop_nonneg.
    + apply slice_stop_negative.
  - intros i j. apply slice_to2_at2, Hrect.
Qed.

Lemma crop_any_dimension_witness :
  rect (Np.slice_stop 2 (-1)) (Np.slice_stop 2 (-1))
    (Np.slice_to2 (-1) [[f5; f7]; [f7; nan]])
  ∧ (∀ len, (Np.slice_stop len (-1) ≤ len)%nat
            ∧ (0 ≤ -1 → Np.slice_stop len (-1) = (Z.to_nat (-1) `min` len)%nat)
            ∧ (-1 < 0 → Np.slice_stop len (-1) = (len - Z.to_nat (- -1))%nat))
  ∧ (∀ i j, (i < Np.slice_stop 2 (-1))%nat → (j < Np.slice_stop 2 (-1))%nat →
       at2 (Np.slice_to2 (-1) [[f5; f7]; [f7; nan]]) i j
       = at2 [[f5; f7]; [f7; nan]] i j).
Proof.
  apply (crop_any_dimension [[f5; f7]; [f7; nan]] 2 2 (-1)).
  split; [reflexivity|repeat constructor].
Defined.

(** X6.  A header value at least as large as both axes of the grid
    leaves the grid as it is. *)
Theorem crop_at_least_grid {A} (a : list (list A)) r c (len_x : Z) :
  rect r c a →
  Z.of_nat r ≤ len_x →
  Z.of_nat c ≤ len_x →
  Np.slice_to2 len_x a = a.
Proof. apply slice_to2_all. Qed.

Lemma crop_at_least_grid_witness :
  Np.slice_to2 5 [[f5; f7]; [f7; nan]] = [[f5; f7]; [f7; nan]].
Proof.
  apply (crop_at_least_grid [[f5; f7]; [f7; nan]] 2 2 5).
  - split; [reflexivity|repeat constructor].
  - simpl. lia.
  - simpl. lia.
Defined.

Lemma slice_to_slice_to {A} (l : list A) n m :
  0 ≤ n → 0 ≤ m →
  Np.slice_to n (Np.slice_to m l) = Np.slice_to (Z.min n m) l.
Proof.
  intros Hn Hm. unfold Np.slice_to.
  rewrite take_take, length_take. f_equal.
  rewrite !slice_stop_nonneg by lia. lia.
Qed.

Lemma slice_to_map {A B} (f : A → B) (l : list A) n :
  Np.slice_to n (map f l) = map f (Np.slice_to n l).
Proof.
  unfold Np.slice_to. rewrite length_map. apply firstn_map.
Qed.

(** X7.  Cropping twice, with header values that are not negative, is
    cropping once with the smaller of the two; cropping again with the
    same value changes nothing. *)
Theorem crop_twice {A} (a : list (list A)) (n m : Z) :
  0 ≤ n →
  0 ≤ m →
  Np.slice_to2 n (Np.slice_to2 m a) = Np.slice_to2 (Z.min n m) a
  ∧ Np.slice_to2 m (Np.slice_to2 m a) = Np.slice_to2 m a.
Proof.
  intros Hn Hm.
  assert (Hgen : ∀ n', 0 ≤ n' →
            Np.slice_to2 n' (Np.slice_to2 m a) = Np.slice_to2 (Z.min n' m) a).
  { intros n' Hn'. unfold Np.slice_to2.
    rewrite slice_to_map, map_map, slice_to_slice_to by assumption.
    apply map_ext. intros row. apply slice_to_slice_to; assumption. }
  split; [apply Hgen, Hn|].
  rewrite (Hgen m Hm), Z.min_id. reflexivity.
Qed.

Lemma crop_twice_witness :
  Np.slice_to2 1 (Np.slice_to2 2 [[f5; f7; f5]; [f7; nan; f5]; [f5; f5; f5]])
  = Np.slice_to2 (Z.min 1 2) [[f5; f7; f5]; [f7; nan; f5]; [f5; f5; f5]]
  ∧ Np.slice_to2 2 (Np.slice_to2 2 [[f5; f7; f5]; [f7; nan; f5]; [f5; f5; f5]])
    = Np.slice_to2 2 [[f5; f7; f5]; [f7; nan; f5]; [f5; f5; f5]].
Proof.
  apply (crop_twice [[f5; f7; f5]; [f7; nan; f5]; [f5; f5; f5]] 1 2); lia.
Defined.

Lemma Forall2_map_both {A B A' B'} (R : A → B → Prop) (R' : A' → B' → Prop)
    (f : A → A') (g : B → B') (l : list A) (k : list B) :
  (∀ x y, R x y → R' (f x) (g y)) →
  Forall2 R l k → Forall2 R' (map f l) (map g k).
Proof.
  intros Hfg. induction 1; simpl; constructor; auto.
Qed.

Lemma mask_take k inds gathered :
  take k (mask inds gathered) = mask (take k inds) (take k gathered).
Proof. unfold mask. apply zip_with_take. Qed.

Lemma row_result_slice_to mstar_all ind1 inds out n :
  row_result mstar_all ind1 inds out →
  row_result mstar_all ind1 (Np.slice_to n inds) (Np.slice_to n out).
Proof.
  intros (gathered & Hg & ->).
  pose proof (gather_mstar_length _ _ _ _ Hg) as Hlen.
  unfold Np.slice_to. rewrite (mask_length _ _ Hlen), mask_take.
  exists (take (Np.slice_stop (length inds) n) gathered). split; [|reflexivity].
  unfold gather_mstar in *. destruct (mstar_all !! ind1) as [bins|]; [|discriminate].
  apply take_Forall2. apply Forall2_take. apply take_Forall2, Hg.
Qed.

(** X8.  Cropping commutes with the builder: when the builder returns
    the mass grid of a bin-id grid, it returns, on the cropped bin-id
    grid, the cropped mass grid; this holds for every header value. *)
Theorem crop_commutes_with_build mstar_all ind1 (ind_binid : list (list Z))
    mstar (len_x : Z) :
  build_mstar mstar_all ind1 ind_binid = Ok mstar →
  build_mstar mstar_all ind1 (Np.slice_to2 len_x ind_binid)
  = Ok (Np.slice_to2 len_x mstar).
Proof.
  rewrite !build_mstar_iff_rows. intros Hrows.
  unfold Np.slice_to2.
  apply (Forall2_map_both (row_result mstar_all ind1)).
  - intros inds out. apply row_result_slice_to.
  - unfold Np.slice_to. rewrite <- (Forall2_length _ _ _ Hrows).
    apply Forall2_take, Hrows.
Qed.

Lemma crop_commutes_with_build_witness :
  build_mstar [bins99] 0 (Np.slice_to2 1 [[1; -99]; [-99; 0]])
  = Ok (Np.slice_to2 1 [[f7; nan]; [nan; f5]]).
Proof.
  apply (crop_commutes_with_build [bins99] 0 [[1; -99]; [-99; 0]]
           [[f7; nan]; [nan; f5]] 1).
  reflexivity.
Defined.

(** * Further properties of the galaxy selection *)

Lemma where_from_present {A} (cond : A → bool) (a : list A) k x :
  x ∈ a → cond x = true → Np.where_from k cond a ≠ [].
Proof.
  intros Hin Hx. revert k.
  induction Hin as [x a|x y a _ IH]; intros k; simpl.
  - rewrite Hx. discriminate.
  - destruct (cond y); [discriminate|apply IH, Hx].
Qed.

Lemma select_galaxy_present plateifus plateifu :
  rstrip plateifu ∈ rstrip <$> plateifus →
  ∃ ind1,
    select_galaxy plateifus plateifu = Ok ind1
    ∧ (ind1 < length plateifus)%nat
    ∧ (rstrip <$> plateifus) !! ind1 = Some (rstrip plateifu)
    ∧ ∀ j, (j < ind1)%nat → (rstrip <$> plateifus) !! j ≠ Some (rstrip plateifu).
Proof.
  intros Hin.
  destruct (select_galaxy plateifus plateifu) as [ind1|err] eqn:Hsel.
  - exists ind1. destruct (select_galaxy_first _ _ _ Hsel) as [Hrow Hfirst].
    split; [reflexivity|]. split; [|auto].
    apply lookup_lt_Some in Hrow. rewrite length_fmap in Hrow. exact Hrow.
  - exfalso. unfold select_galaxy, Np.where_ in Hsel.
    destruct (Np.where_from 0 (char_equal plateifu) plateifus) eqn:Hw;
      [|discriminate].
    apply list_elem_of_fmap in Hin as (x & Hx & Hin).
    eapply where_from_present; [exact Hin| |exact Hw].
    apply char_equal_true. exact Hx.
Qed.

Lemma fmap_rstrip_id (l : list string) :
  Forall (fun x => rstrip x = x) l → rstrip <$> l = l.
Proof.
  induction 1 as [|x l Hx _ IH]; simpl; [reflexivity|].
  rewrite Hx. f_equal. exact IH.
Qed.

(** X9.  For every identifier that the galaxy-identifier column holds,
    trailing white space apart, the index resolution returns a row of
    the column: the first row that holds the identifier, also when later
    rows hold it again.  On a column and an identifier without trailing
    white space this is the first row equal to the identifier. *)
Theorem select_galaxy_first_match plateifus plateifu :
  rstrip plateifu ∈ rstrip <$> plateifus →
  ∃ ind1,
    select_galaxy plateifus plateifu = Ok ind1
    ∧ (ind1 < length plateifus)%nat
    ∧ (rstrip <$> plateifus) !! ind1 = Some (rstrip plateifu)
    ∧ (∀ j, (j < ind1)%nat →
         (rstrip <$> plateifus) !! j ≠ Some (rstrip plateifu))
    ∧ (Forall (fun x => rstrip x = x) plateifus →
       rstrip plateifu = plateifu →
       plateifus !! ind1 = Some plateifu
       ∧ ∀ j, (j < ind1)%nat → plateifus !! j ≠ Some plateifu).
Proof.
  intros Hin.
  destruct (select_galaxy_present _ _ Hin) as (ind1 & Hsel & Hlt & Hrow & Hfirst).
  exists ind1. repeat split; try assumption.
  - rewrite (fmap_rstrip_id _ H) in Hrow. congruence.
  - intros j Hj. specialize (Hfirst j Hj).
    rewrite (fmap_rstrip_id _ H) in Hfirst. congruence.
Qed.

Lemma select_galaxy_first_match_witness :
  ∃ ind1,
    select_galaxy ["8485-1901"; "0001-01"; "0001-01"] "0001-01 " = Ok ind1
    ∧ (ind1 < length ["8485-1901"; "0001-01"; "0001-01"])%nat
    ∧ (rstrip <$> ["8485-1901"; "0001-01"; "0001-01"]) !! ind1
      = Some (rstrip "0001-01 ")
    ∧ (∀ j, (j < ind1)%nat →
         (rstrip <$> ["8485-1901"; "0001-01"; "0001-01"]) !! j
         ≠ Some (rstrip "0001-01 "))
    ∧ (Forall (fun x => rstrip x = x) ["8485-1901"; "0001-01"; "0001-01"] →
       rstrip "0001-01 " = "0001-01 " →
       ["8485-1901"; "0001-01"; "0001-01"] !! ind1 = Some "0001-01 "
       ∧ ∀ j, (j < ind1)%nat →
           ["8485-1901"; "0001-01"; "0001-01"] !! j ≠ Some "0001-01 ").
Proof.
  apply (select_galaxy_first_match ["8485-1901"; "0001-01"; "0001-01"] "0001-01 ").
  vm_compute. apply list_elem_of_In. simpl. auto.
Defined.

(** * Further properties of the run *)

Ltac run_cases e plateifu :=
  unfold run, fits_open, write_csv, lift, emit,
    mbind, prog_bind, mret, prog_ret; simpl;
  destruct (firefly e) as [fin|err] eqn:Hfin; simpl;
  [destruct (select_galaxy (plateifus fin) plateifu) as [ind1|err] eqn:Hsel; simpl;
   [destruct (select_binid (spaxel_binid fin) ind1) as [ind_binid|err] eqn:Hgrid; simpl;
    [destruct (build_mstar (mstar_all fin) ind1 ind_binid) as [mstar|err] eqn:Hb; simpl;
     [destruct (naxis1 e plateifu) as [len_x|err] eqn:Hdim; simpl;
      [destruct (writable e (fout_path e plateifu)) eqn:Hw; simpl| ]| ]| ]| ]| ].

(** X12.  The effects of a run come in one order: the catalog is opened,
    marvin's database is switched off, the file is written, the path is
    printed, the catalog is closed.  The log of every run is a prefix of
    that sequence, and the whole of it exactly when the run completes. *)
Theorem run_log_is_prefix float_repr e plateifu r log :
  run float_repr e plateifu [] = (r, log) →
  ∃ lines,
    log `prefix_of` full_log e plateifu lines
    ∧ (is_ok r = true ↔ log = full_log e plateifu lines).
Proof.
  run_cases e plateifu; intros [= <- <-]; simpl.
  - exists (to_csv float_repr (Np.slice_to2 len_x mstar)). split.
    + exists []. rewrite app_nil_r. reflexivity.
    + split; reflexivity.
  - exists []. split; [eexists; reflexivity|]. split; discriminate.
  - exists []. split; [eexists; reflexivity|]. split; discriminate.
  - exists []. split; [eexists; reflexivity|]. split; discriminate.
  - exists []. split; [eexists; reflexivity|]. split; discriminate.
  - exists []. split; [eexists; reflexivity|]. split; discriminate.
  - exists []. split; [eexists; reflexivity|]. split; discriminate.
Qed.

Lemma run_log_is_prefix_witness :
  ∃ lines,
    snd (run repr_integral (env_of long_catalog) "0001-01" [])
      `prefix_of` full_log (env_of long_catalog) "0001-01" lines
    ∧ (is_ok (Ok tt) = true
       ↔ snd (run repr_integral (env_of long_catalog) "0001-01" [])
         = full_log (env_of long_catalog) "0001-01" lines).
Proof.
  apply (run_log_is_prefix repr_integral (env_of long_catalog) "0001-01").
  vm_compute. reflexivity.
Defined.

(** X13.  An error of the cube is neither caught nor translated: when
    the steps before it go through, the run ends on that very error,
    after the catalog was opened and the database switched off, with no
    file written and the catalog not closed. *)
Theorem cube_error_propagates float_repr e fin plateifu ind1 ind_binid mstar err :
  firefly e = Ok fin →
  select_galaxy (plateifus fin) plateifu = Ok ind1 →
  select_binid (spaxel_binid fin) ind1 = Ok ind_binid →
  build_mstar (mstar_all fin) ind1 ind_binid = Ok mstar →
  naxis1 e plateifu = Raise err →
  run float_repr e plateifu []
  = (Raise err, [FitsOpen (path_firefly e); ForceDbOff]).
Proof.
  intros Hfin Hsel Hgrid Hb Hdim.
  unfold run, fits_open, write_csv, lift, emit, mbind, prog_bind, mret, prog_ret.
  rewrite Hfin. simpl. rewrite Hsel, Hgrid, Hb. simpl. rewrite Hdim. reflexivity.
Qed.

Lemma cube_error_propagates_witness :
  run repr_integral
    (Env "../data" (Ok long_catalog) (fun _ => Raise MarvinError) (fun _ => true))
    "0001-01" []
  = (Raise MarvinError,
     [FitsOpen (path_firefly
        (Env "../data" (Ok long_catalog) (fun _ => Raise MarvinError) (fun _ => true)));
      ForceDbOff]).
Proof.
  apply (cube_error_propagates repr_integral
           (Env "../data" (Ok long_catalog) (fun _ => Raise MarvinError) (fun _ => true))
           long_catalog "0001-01" 0 [[0; -99]; [1; 0]] [[f5; nan]; [f7; f5]]);
    reflexivity.
Defined.



(** X15.  The file of a run that completes has, for a galaxy whose page
    of bin ids is r by c and a header value N above zero, one line of
    labels and then the smaller of N and r lines, each line with the
    smaller of N and c fields. *)
Theorem written_file_shape float_repr e fin plateifu ind1 page r c
    (len_x : Z) log :
  firefly e = Ok fin →
  select_galaxy (plateifus fin) plateifu = Ok ind1 →
  spaxel_binid fin !! ind1 = Some page →
  rect r c page →
  (0 < r)%nat →
  naxis1 e plateifu = Ok len_x →
  0 < len_x →
  run float_repr e plateifu [] = (Ok tt, log) →
  ∃ lines,
    csv_files log = [(fout_path e plateifu, lines)]
    ∧ length lines = S (Z.to_nat len_x `min` r)
    ∧ Forall (fun line => length line = (Z.to_nat len_x `min` c)%nat) lines.
Proof.
  intros Hfin Hsel Hpage Hrect Hr Hdim Hpos.
  unfold run, fits_open, write_csv, lift, emit, mbind, prog_bind, mret, prog_ret.
  rewrite Hfin. simpl. rewrite Hsel. unfold select_binid. rewrite Hpage. simpl.
  destruct (build_mstar _ _ _) as [mstar|err] eqn:Hb; simpl; [|discriminate].
  rewrite Hdim. simpl.
  destruct (writable e (fout_path e plateifu)); simpl; [|discriminate].
  intros [= <-]. simpl.
  exists (to_csv float_repr (Np.slice_to2 len_x mstar)).
  split; [reflexivity|].
  assert (Hgrid : rect r c (map (map (fun cell => astype_int (binid cell))) page)).
  { destruct Hrect as [Hrows Hcols]. split.
    - rewrite length_map. exact Hrows.
    - apply Forall_fmap. eapply Forall_impl; [exact Hcols|]. simpl.
      intros row <-. apply length_map. }
  pose proof (build_mstar_shape _ _ _ _ _ _ Hb Hgrid) as Hshape.
  pose proof (slice_to2_rect mstar r c len_x Hshape) as Hcrop.
  rewrite !slice_stop_nonneg in Hcrop by lia.
  split.
  - rewrite to_csv_length. destruct Hcrop as [-> _]. reflexivity.
  - eapply to_csv_fields; [exact Hcrop|lia].
Qed.

Lemma written_file_shape_witness :
  ∃ lines,
    csv_files (snd (run repr_integral (env_of long_catalog) "0001-01" []))
    = [(fout_path (env_of long_catalog) "0001-01", lines)]
    ∧ length lines = S (Z.to_nat 2 `min` 2)
    ∧ Forall (fun line => length line = (Z.to_nat 2 `min` 2)%nat) lines.
Proof.
  apply (written_file_shape repr_integral (env_of long_catalog) long_catalog
           "0001-01" 0
           [[cell_of f0; cell_of fm99]; [cell_of f1; cell_of f0]] 2 2 2).
  - reflexivity.
  - reflexivity.
  - reflexivity.
  - split; [reflexivity|repeat constructor].
  - lia.
  - reflexivity.
  - lia.
  - vm_compute. reflexivity.
Defined.

(** * The paths *)

Lemma string_app_length (x t : string) :
  String.length (x +:+ t) = (String.length x + String.length t)%nat.
Proof. induction x as [|ch x IH]; simpl; [reflexivity|]. rewrite IH. reflexivity. Qed.

Lemma string_app_assoc (x y z : string) : (x +:+ y) +:+ z = x +:+ y +:+ z.
Proof.
  induction x as [|ch x IH]; [reflexivity|].
  change (String ch ((x +:+ y) +:+ z) = String ch (x +:+ y +:+ z)).
  f_equal. exact IH.
Qed.




Lemma is_sep_sep : is_sep sep = true.
Proof. reflexivity. Qed.

Lemma has_sep_app_sep (p name : string) : has_sep (p +:+ String sep name) = true.
Proof.
  induction p as [|ch p IH]; simpl.
  - reflexivity.
  - rewrite IH. apply orb_true_r.
Qed.

Lemma upto_last_sep_none (p : string) : has_sep p = false → upto_last_sep p = "".
Proof. destruct p as [|ch p]; simpl; [reflexivity|]. intros ->. reflexivity. Qed.

Lemma after_last_sep_none (p : string) : has_sep p = false → after_last_sep p = p.
Proof. destruct p as [|ch p]; simpl; [reflexivity|]. intros ->. reflexivity. Qed.

Lemma upto_last_sep_app (p name : string) :
  has_sep name = false →
  upto_last_sep (p +:+ String sep name) = p +:+ String sep "".
Proof.
  intros Hname. induction p as [|ch p IH].
  - simpl. rewrite (upto_last_sep_none _ Hname). reflexivity.
  - change (upto_last_sep (String ch (p +:+ String sep name))
            = String ch (p +:+ String sep "")).
    simpl. rewrite has_sep_app_sep, orb_true_r, IH. reflexivity.
Qed.

Lemma after_last_sep_app (p name : string) :
  has_sep name = false →
  after_last_sep (p +:+ String sep name) = name.
Proof.
  intros Hname. induction p as [|ch p IH].
  - simpl. apply after_last_sep_none, Hname.
  - change (after_last_sep (String ch (p +:+ String sep name)) = name).
    simpl. rewrite has_sep_app_sep, orb_true_r. exact IH.
Qed.

Lemma endswith_sep_cons ch (p : string) :
  p ≠ "" → endswith_sep (String ch p) = endswith_sep p.
Proof. destruct p; [contradiction|reflexivity]. Qed.

Lemma all_sep_app_not_ending (p t : string) :
  p ≠ "" → endswith_sep p = false → all_sep (p +:+ t) = false.
Proof.
  induction p as [|ch p IH]; [contradiction|]. intros _ Hend.
  destruct p as [|ch' p].
  - simpl in *. rewrite Hend. reflexivity.
  - rewrite endswith_sep_cons in Hend by discriminate.
    change (is_sep ch && all_sep (String ch' p +:+ t) = false).
    rewrite IH by (discriminate || assumption). apply andb_false_r.
Qed.

Lemma rstrip_sep_app_sep (p : string) :
  endswith_sep p = false → rstrip_sep (p +:+ String sep "") = p.
Proof.
  induction p as [|ch p IH]; intros Hend.
  - reflexivity.
  - change (rstrip_sep (String ch (p +:+ String sep "")) = String ch p).
    assert (Hall : all_sep (String ch p +:+ String sep "") = false)
      by (apply all_sep_app_not_ending; [discriminate|exact Hend]).
    change (all_sep (String ch (p +:+ String sep "")) = false) in Hall.
    simpl. simpl in Hall. rewrite Hall. f_equal. apply IH.
    destruct p as [|ch' p]; [reflexivity|].
    rewrite endswith_sep_cons in Hend by discriminate. exact Hend.
Qed.

Lemma os_path_split_parent (parent name : string) :
  endswith_sep parent = false →
  has_sep name = false →
  os_path_split (parent +:+ String sep name)
  = (if String.eqb parent "" then String sep "" else parent, name).
Proof.
  intros Hend Hname. unfold os_path_split.
  rewrite (upto_last_sep_app _ _ Hname), (after_last_sep_app _ _ Hname).
  destruct parent as [|ch parent].
  - reflexivity.
  - rewrite (all_sep_app_not_ending (String ch parent)) by (discriminate || assumption).
    rewrite (rstrip_sep_app_sep _ Hend).
    replace (String.eqb (String ch parent +:+ String sep "") "") with false
      by (symmetry; apply String.eqb_neq; discriminate).
    replace (String.eqb (String ch parent) "") with false
      by (symmetry; apply String.eqb_neq; discriminate).
    reflexivity.
Qed.

(** X17.  The data directory is the [data] directory beside the working
    directory: for a working directory [parent/name], where [name] has
    no separator and [parent] does not end with one (it is empty when
    the working directory is right under the root, or the root itself),
    [path_data] is [parent/data]. *)
Theorem path_data_is_sibling (parent name : string) :
  endswith_sep parent = false →
  has_sep name = false →
  path_repo_of (parent +:+ String sep name)
  = (if String.eqb parent "" then String sep "" else parent)
  ∧ path_data_of (parent +:+ String sep name) = parent +:+ "/data".
Proof.
  intros Hend Hname. unfold path_data_of, path_repo_of.
  rewrite (os_path_split_parent _ _ Hend Hname). simpl.
  split; [reflexivity|].
  destruct parent as [|ch parent]; [reflexivity|].
  replace (String.eqb (String ch parent) "") with false
    by (symmetry; apply String.eqb_neq; discriminate).
  unfold os_path_join.
  replace (String.eqb (String ch parent) "") with false
    by (symmetry; apply String.eqb_neq; discriminate).
  rewrite Hend. reflexivity.
Qed.

Lemma path_data_is_sibling_witness :
  path_repo_of ("/home/andrews/galaxies-mzr" +:+ String sep "scripts")
  = (if String.eqb "/home/andrews/galaxies-mzr" "" then String sep ""
     else "/home/andrews/galaxies-mzr")
  ∧ path_data_of ("/home/andrews/galaxies-mzr" +:+ String sep "scripts")
    = "/home/andrews/galaxies-mzr" +:+ "/data".
Proof.
  apply (path_data_is_sibling "/home/andrews/galaxies-mzr" "scripts");
    reflexivity.
Defined.

Lemma endswith_sep_app (p t : string) :
  t ≠ "" → endswith_sep (p +:+ t) = endswith_sep t.
Proof.
  intros Ht. induction p as [|ch p IH]; [reflexivity|].
  change (endswith_sep (String ch (p +:+ t)) = endswith_sep t).
  rewrite endswith_sep_cons; [exact IH|].
  destruct p; simpl; [exact Ht|discriminate].
Qed.

Lemma os_path_join_data (a : string) :
  ∃ pre, os_path_join a "data" = pre +:+ "data".
Proof.
  unfold os_path_join. simpl.
  destruct (String.eqb a "" || endswith_sep a).
  - exists a. reflexivity.
  - exists (a +:+ "/"). symmetry. apply string_app_assoc.
Qed.

(** X18.  Below the data directory, [os.path.join] is the plain
    concatenation with one separator: whatever the working directory
    is, the catalog path and the output path of a run in the data
    directory that the script derives from it are the paths that
    [os.path.join] gives. *)
Theorem paths_are_os_path_join (cwd : string) e (plateifu : string) :
  path_data e = path_data_of cwd →
  path_firefly e
  = os_path_join (path_data_of cwd) "manga_firefly-v2_1_2-STELLARPOP.fits"
  ∧ fout_path e plateifu
    = os_path_join (path_data_of cwd) ("manga-" +:+ plateifu +:+ "_mstar.csv").
Proof.
  intros Hdata. unfold path_firefly, fout_path, join. rewrite Hdata.
  destruct (os_path_join_data (path_repo_of cwd)) as [pre Hpre].
  unfold path_data_of. rewrite Hpre.
  assert (Hend : endswith_sep (pre +:+ "data") = false)
    by (rewrite endswith_sep_app by discriminate; reflexivity).
  assert (Hne : String.eqb (pre +:+ "data") "" = false).
  { apply String.eqb_neq. intros Heq.
    apply (f_equal String.length) in Heq.
    rewrite string_app_length in Heq. simpl in Heq. lia. }
  unfold os_path_join. simpl. rewrite Hne, Hend. simpl. split; reflexivity.
Qed.

Lemma paths_are_os_path_join_witness :
  path_firefly (Env (path_data_of "/home/andrews/galaxies-mzr/scripts")
                  (Ok long_catalog) (fun _ => Ok 2) (fun _ => true))
  = os_path_join (path_data_of "/home/andrews/galaxies-mzr/scripts")
      "manga_firefly-v2_1_2-STELLARPOP.fits"
  ∧ fout_path (Env (path_data_of "/home/andrews/galaxies-mzr/scripts")
                 (Ok long_catalog) (fun _ => Ok 2) (fun _ => true)) "8485-1901"
    = os_path_join (path_data_of "/home/andrews/galaxies-mzr/scripts")
        ("manga-" +:+ "8485-1901" +:+ "_mstar.csv").
Proof.
  apply (paths_are_os_path_join "/home/andrews/galaxies-mzr/scripts"
           (Env (path_data_of "/home/andrews/galaxies-mzr/scripts")
              (Ok long_catalog) (fun _ => Ok 2) (fun _ => true)) "8485-1901").
  reflexivity.
Defined.

Example sep_is_slash : String sep "" = "/".
Proof. reflexivity. Qed.

(** * Further properties of the loop and of the cast *)

Lemma build_mstar_long_table_witness :
  ∃ mstar, build_mstar [bins99] 0 [[0; -99]; [1; 0]] = Ok mstar.
Proof.
  apply (build_mstar_long_table [bins99] 0 bins99 [[0; -99]; [1; 0]]).
  - reflexivity.
  - simpl. lia.
  - constructor; [|constructor; [|constructor]].
    + constructor; [right; unfold valid_bin; simpl; lia|].
      constructor; [left; reflexivity|constructor].
    + constructor; [right; unfold valid_bin; simpl; lia|].
      constructor; [right; unfold valid_bin; simpl; lia|constructor].
Defined.

(** X20.  One turn of the loop writes one row: when it returns, the
    array has as many rows as before, the row of the turn holds the
    masked gather of its bin ids, and every other row is as it was. *)
Theorem row_step_frame mstar_all ind1 (mstar mstar' : list (list float))
    row (inds : list Z) :
  row_step mstar_all ind1 mstar row inds = Ok mstar' →
  length mstar' = length mstar
  ∧ (∀ j, j ≠ row → mstar' !! j = mstar !! j)
  ∧ ((row < length mstar)%nat →
     ∃ out, mstar' !! row = Some out ∧ row_result mstar_all ind1 inds out).
Proof.
  intros Hstep.
  destruct (gather_mstar mstar_all ind1 inds) as [gathered|err] eqn:Hg.
  - rewrite (row_step_ok _ _ _ _ _ _ Hg) in Hstep. injection Hstep as <-.
    split; [apply length_insert|]. split.
    + intros j Hj. apply list_lookup_insert_ne. congruence.
    + intros Hrow. exists (mask inds gathered). split.
      * apply list_lookup_insert_eq, Hrow.
      * exists gathered. auto.
  - rewrite (row_step_raise _ _ _ _ _ _ Hg) in Hstep. discriminate.
Qed.

Lemma row_step_frame_witness :
  length [[nan; nan]; [f7; nan]] = length [[nan; nan]; [nan; nan]]
  ∧ (∀ j, j ≠ 1%nat →
       [[nan; nan]; [f7; nan]] !! j = [[nan; nan]; [nan; nan]] !! j)
  ∧ ((1 < length [[nan; nan]; [nan; nan]])%nat →
     ∃ out, [[nan; nan]; [f7; nan]] !! 1%nat = Some out
            ∧ row_result [bins99] 0 [1; -99] out).
Proof.
  apply (row_step_frame [bins99] 0 [[nan; nan]; [nan; nan]]
           [[nan; nan]; [f7; nan]] 1 [1; -99]).
  reflexivity.
Defined.

(** X21.  The cast of a bin id drops the fraction towards zero: for a
    double with mantissa m and a negative exponent e, the integer is the
    quotient of the signed mantissa by 2^(-e), rounded towards zero,
    whenever that quotient is a 64-bit integer. *)
Theorem astype_int_truncates (s : bool) (m : positive) (e : Z) :
  e < 0 →
  int64_min ≤ Z.quot (if s then Z.neg m else Z.pos m) (2 ^ (- e)) ≤ int64_max →
  astype_int (S754_finite s m e)
  = Z.quot (if s then Z.neg m else Z.pos m) (2 ^ (- e)).
Proof.
  intros He Hrange.
  assert (Hpow : 0 < 2 ^ (- e)) by (apply Z.pow_pos_nonneg; lia).
  assert (Hshift : Z.shiftl (Z.pos m) e = Z.pos m / 2 ^ (- e)).
  { rewrite <- Z.shiftr_opp_r. apply Z.shiftr_div_pow2. lia. }
  assert (Hquot : Z.quot (if s then Z.neg m else Z.pos m) (2 ^ (- e))
                  = if s then - (Z.pos m / 2 ^ (- e)) else Z.pos m / 2 ^ (- e)).
  { destruct s.
    - change (Z.neg m) with (- Z.pos m).
      rewrite Z.quot_opp_l by lia. rewrite Z.quot_div_nonneg by lia. reflexivity.
    - apply Z.quot_div_nonneg; lia. }
  rewrite Hquot in *. unfold astype_int. cbv zeta. rewrite Hshift.
  destruct (Z.leb_spec int64_min (if s then - (Z.pos m / 2 ^ (- e)) else Z.pos m / 2 ^ (- e)));
    [|lia].
  destruct (Z.leb_spec (if s then - (Z.pos m / 2 ^ (- e)) else Z.pos m / 2 ^ (- e)) int64_max);
    [|lia].
  reflexivity.
Qed.

Lemma astype_int_truncates_witness :
  astype_int (S754_finite true 199 (-1)) = Z.quot (Z.neg 199) (2 ^ (- -1)).
Proof.
  apply (astype_int_truncates true 199 (-1)).
  - lia.
  - vm_compute. split; discriminate.
Defined.
